(** * devrk-mcp: tool registry, lazy dispatcher, validation wrapper and HTTP auth

    Shallow embedding of [src/mcp-server.ts] (the HTTP server, the second
    and live copy inside [src/src/servers/index.ts]), of the stdio copy that
    precedes it, of [createTool] (the tool factory inside
    [src/src/utils/composio-client.ts]) and of the entry point
    [main] ([src/unnamed/part_006]). *)

From Stdlib Require Import String Ascii List ZArith Lia Bool.
From Stdlib Require Import DecimalPos DecimalN.
Import ListNotations.
Set Warnings "-register-all".
Open Scope string_scope.

(* ------------------------------------------------------------------ *)
(** ** JavaScript values that the code builds and passes around *)

Module Json.
Local Open Scope list_scope.

(** A JSON-shaped JS value: numbers are modelled by the integers. An
    object is its list of own enumerable properties in insertion order. *)
Inductive jvalue : Type :=
| JNull : jvalue
| JBool : bool -> jvalue
| JNum : Z -> jvalue
| JStr : string -> jvalue
| JArr : list jvalue -> jvalue
| JObj : list (string * jvalue) -> jvalue.

(** Induction principle that sees through the nested lists. *)
Section jvalue_ind'.
Variable P : jvalue -> Prop.
Hypothesis HNull : P JNull.
Hypothesis HBool : forall b, P (JBool b).
Hypothesis HNum : forall z, P (JNum z).
Hypothesis HStr : forall s, P (JStr s).
Hypothesis HArr : forall l, Forall P l -> P (JArr l).
Hypothesis HObj : forall l, Forall (fun kv => P (snd kv)) l -> P (JObj l).

Fixpoint jvalue_ind' (v : jvalue) : P v :=
  match v with
  | JNull => HNull
  | JBool b => HBool b
  | JNum z => HNum z
  | JStr s => HStr s
  | JArr l =>
      HArr l ((fix go (l : list jvalue) : Forall P l :=
                 match l with
                 | [] => Forall_nil _
                 | x :: xs => Forall_cons _ (jvalue_ind' x) (go xs)
                 end) l)
  | JObj l =>
      HObj l ((fix go (l : list (string * jvalue))
                 : Forall (fun kv => P (snd kv)) l :=
                 match l with
                 | [] => Forall_nil _
                 | kv :: xs => Forall_cons _ (jvalue_ind' (snd kv)) (go xs)
                 end) l)
  end.
End jvalue_ind'.

(** [obj[key]] on a plain object: [None] plays [undefined]. *)
Fixpoint lookup (key : string) (l : list (string * jvalue)) : option jvalue :=
  match l with
  | [] => None
  | (k, v) :: r => if String.eqb k key then Some v else lookup key r
  end.

Definition get (o : jvalue) (key : string) : option jvalue :=
  match o with
  | JObj l => lookup key l
  | _ => None
  end.

(** [delete obj[key]]. *)
Definition remove_key (key : string) (l : list (string * jvalue))
  : list (string * jvalue) :=
  filter (fun kv => negb (String.eqb (fst kv) key)) l.

Definition delete (o : jvalue) (key : string) : jvalue :=
  match o with
  | JObj l => JObj (remove_key key l)
  | v => v
  end.

(** JS truthiness of a value read out of an object ([undefined] is [None]). *)
Definition truthy (o : option jvalue) : bool :=
  match o with
  | None | Some JNull | Some (JBool false) => false
  | Some (JNum z) => negb (Z.eqb z 0)
  | Some (JStr s) => negb (String.eqb s "")
  | Some _ => true
  end.

(** ** [JSON.stringify(value, null, 2)] *)

Definition nl : ascii := ascii_of_nat 10.

Definition indent (d : nat) : list ascii := repeat " "%char (2 * d).

Definition hex_digit (n : nat) : ascii :=
  if (n <? 10)%nat then ascii_of_nat (48 + n) else ascii_of_nat (87 + n).

(** The double quote character (code 34). *)
Definition dquote : ascii := Ascii.Ascii false true false false false true false false.

(** QuoteJSONString on one code unit. *)
Definition esc (c : ascii) : list ascii :=
  let n := nat_of_ascii c in
  if Ascii.eqb c dquote then ["\"%char; dquote]
  else if Ascii.eqb c "\"%char then ["\"%char; "\"%char]
  else if (n =? 8)%nat then ["\"%char; "b"%char]
  else if (n =? 9)%nat then ["\"%char; "t"%char]
  else if (n =? 10)%nat then ["\"%char; "n"%char]
  else if (n =? 12)%nat then ["\"%char; "f"%char]
  else if (n =? 13)%nat then ["\"%char; "r"%char]
  else if (n <? 32)%nat then
    ["\"%char; "u"%char; "0"%char; "0"%char; hex_digit (n / 16); hex_digit (n mod 16)]
  else [c].

Definition quote (s : string) : list ascii :=
  dquote :: flat_map esc (list_ascii_of_string s) ++ [dquote].

Fixpoint uint_chars (d : Decimal.uint) : list ascii :=
  match d with
  | Decimal.Nil => []
  | Decimal.D0 r => "0"%char :: uint_chars r
  | Decimal.D1 r => "1"%char :: uint_chars r
  | Decimal.D2 r => "2"%char :: uint_chars r
  | Decimal.D3 r => "3"%char :: uint_chars r
  | Decimal.D4 r => "4"%char :: uint_chars r
  | Decimal.D5 r => "5"%char :: uint_chars r
  | Decimal.D6 r => "6"%char :: uint_chars r
  | Decimal.D7 r => "7"%char :: uint_chars r
  | Decimal.D8 r => "8"%char :: uint_chars r
  | Decimal.D9 r => "9"%char :: uint_chars r
  end.

(** Number::toString on an integer. *)
Definition num_chars (z : Z) : list ascii :=
  match z with
  | Z0 => ["0"%char]
  | Zpos p => uint_chars (Pos.to_uint p)
  | Zneg p => "-"%char :: uint_chars (Pos.to_uint p)
  end.

(** SerializeJSONProperty with gap ["  "]; [d] is the current depth. *)
Fixpoint ser (d : nat) (v : jvalue) : list ascii :=
  match v with
  | JNull => list_ascii_of_string "null"
  | JBool true => list_ascii_of_string "true"
  | JBool false => list_ascii_of_string "false"
  | JNum z => num_chars z
  | JStr s => quote s
  | JArr [] => list_ascii_of_string "[]"
  | JArr (x :: xs) =>
      "["%char :: nl :: indent (S d) ++ ser (S d) x
      ++ flat_map (fun y => ","%char :: nl :: indent (S d) ++ ser (S d) y) xs
      ++ nl :: indent d ++ ["]"%char]
  | JObj [] => list_ascii_of_string "{}"
  | JObj ((k, x) :: kvs) =>
      "{"%char :: nl :: indent (S d) ++ quote k ++ [":"%char; " "%char] ++ ser (S d) x
      ++ flat_map (fun kv => let '(k', y) := kv in
                   ","%char :: nl :: indent (S d) ++ quote k' ++ [":"%char; " "%char]
                   ++ ser (S d) y) kvs
      ++ nl :: indent d ++ ["}"%char]
  end.

(** [JSON.stringify(result, null, 2)] *)
Definition stringify (v : jvalue) : string := string_of_list_ascii (ser 0 v).

End Json.
Import Json.

(* ------------------------------------------------------------------ *)
(** ** Name normalizer *)

Module Names.

Definition is_upper (c : ascii) : bool :=
  let n := nat_of_ascii c in ((65 <=? n) && (n <=? 90))%nat.

Definition to_lower (c : ascii) : ascii :=
  if is_upper c then ascii_of_nat (nat_of_ascii c + 32)%nat else c.

(** [str.replace(/[A-Z]/g, letter => `_${letter.toLowerCase()}`)] *)
Fixpoint camelToSnake (s : string) : string :=
  match s with
  | EmptyString => EmptyString
  | String c r =>
      if is_upper c then String "_" (String (to_lower c) (camelToSnake r))
      else String c (camelToSnake r)
  end.

(** [name.replace(/-/g, '_')] *)
Fixpoint normalizeServerName (s : string) : string :=
  match s with
  | EmptyString => EmptyString
  | String c r =>
      if Ascii.eqb c "-" then String "_" (normalizeServerName r)
      else String c (normalizeServerName r)
  end.

(** [`${normalizeServerName(serverMeta.name)}__${camelToSnake(toolName)}`]
    (HTTP server, [initializeToolRegistry] and [loadToolMetadata]). *)
Definition mcpToolName (serverName toolName : string) : string :=
  normalizeServerName serverName ++ "__" ++ camelToSnake toolName.

(** [`${serverMeta.name}__${camelToSnake(toolName)}`] (stdio copy). *)
Definition mcpToolName_stdio (serverName toolName : string) : string :=
  serverName ++ "__" ++ camelToSnake toolName.

End Names.
Import Names.

(* ------------------------------------------------------------------ *)
(** ** Server registry ([src/servers/index.ts]) *)

Record ServerMetadata := {
  sm_name : string;
  sm_description : string;
  sm_version : string;
  sm_tools : list string
}.

Definition serverRegistry : list ServerMetadata := [
  {| sm_name := "example";
     sm_description := "Example tool server demonstrating the MCP architecture";
     sm_version := "1.0.0"; sm_tools := ["greet"] |};
  {| sm_name := "youtube";
     sm_description := "YouTube integration via Composio - subscriptions, playlists, latest videos";
     sm_version := "1.0.0";
     sm_tools := ["getSubscriptions"; "getPlaylistItems"; "getLatestVideos"] |};
  {| sm_name := "gmail";
     sm_description := "Gmail integration via Composio - send emails";
     sm_version := "1.0.0"; sm_tools := ["sendEmail"] |}
].

(** The (server, tool) pairs in the order of the two nested [for] loops. *)
Definition catalog (servers : list ServerMetadata) : list (string * string) :=
  flat_map (fun sm => map (fun t => (sm_name sm, t)) (sm_tools sm)) servers.

(* ------------------------------------------------------------------ *)
(** ** Errors and the outcome of an async call *)

Module Err.

(** One entry of [ZodError.errors]. *)
Record zissue := { zi_code : string; zi_path : list string; zi_message : string }.

(** What a [catch] clause can receive. *)
Inductive jserror : Type :=
| PlainError : string -> jserror          (** [new Error(msg)], [TypeError] *)
| ZodError : list zissue -> jserror        (** thrown by [schema.parse] *)
| ToolError : string -> string -> option jserror -> bool -> jserror
    (** [new ToolError(tool, message, cause, retryable)] *)
| Thrown : jvalue -> jserror.              (** a thrown non-[Error] value *)

Definition issue_json (i : zissue) : jvalue :=
  JObj [("code", JStr (zi_code i));
        ("path", JArr (map JStr (zi_path i)));
        ("message", JStr (zi_message i))].

(** [error.message]; for a thrown non-[Error] value it is [undefined]. *)
Definition message (e : jserror) : string :=
  match e with
  | PlainError m => m
  | ZodError issues => stringify (JArr (map issue_json issues))
  | ToolError tool m _ _ => "[" ++ tool ++ "] " ++ m
  | Thrown _ => "undefined"
  end.

Definition is_tool_error (e : jserror) : bool :=
  match e with ToolError _ _ _ _ => true | _ => false end.

Definition retryable (e : jserror) : bool :=
  match e with ToolError _ _ _ r => r | _ => false end.

End Err.
Import Err.

(** A settled promise: resolved with a value or rejected with an error. *)
Inductive outcome (A : Type) : Type :=
| Ok : A -> outcome A
| Throw : jserror -> outcome A.
Arguments Ok {A} _.
Arguments Throw {A} _.

Definition bind {A B} (m : outcome A) (k : A -> outcome B) : outcome B :=
  match m with Ok a => k a | Throw e => Throw e end.

Notation "x <- m ;; k" := (bind m (fun x => k))
  (at level 61, m at next level, right associativity).

(* ------------------------------------------------------------------ *)
(** ** Zod schemas, as far as [parse] goes *)

Module Zod.

Inductive zschema : Type :=
| ZAny : zschema
| ZNumber : zschema
| ZString : zschema
| ZBoolean : zschema
| ZOptional : zschema -> zschema
| ZDefault : zschema -> jvalue -> zschema
| ZObject : list (string * zschema) -> zschema.

Definition type_name (v : jvalue) : string :=
  match v with
  | JNull => "null" | JBool _ => "boolean" | JNum _ => "number"
  | JStr _ => "string" | JArr _ => "array" | JObj _ => "object"
  end.

Definition invalid_type (path : list string) (expected : string)
    (v : option jvalue) : zissue :=
  {| zi_code := "invalid_type"; zi_path := path;
     zi_message := match v with
                   | None => "Required"
                   | Some x => "Expected " ++ expected ++ ", received " ++ type_name x
                   end |}.

(** [safeParse] of one value at [path]: the issues it reports (all of them,
    in the order Zod reports them) and the parsed value ([None] for
    [undefined]). An object strips keys it does not know. *)
Fixpoint zparse (s : zschema) (path : list string) (v : option jvalue)
  : list zissue * option jvalue :=
  match s with
  | ZAny => ([], v)
  | ZNumber => match v with Some (JNum _) => ([], v)
               | _ => ([invalid_type path "number" v], None) end
  | ZString => match v with Some (JStr _) => ([], v)
               | _ => ([invalid_type path "string" v], None) end
  | ZBoolean => match v with Some (JBool _) => ([], v)
                | _ => ([invalid_type path "boolean" v], None) end
  | ZOptional s' => match v with None => ([], None) | Some _ => zparse s' path v end
  | ZDefault s' d => match v with None => zparse s' path (Some d)
                     | Some _ => zparse s' path v end
  | ZObject fields =>
      match v with
      | Some (JObj l) =>
          let fix go (fs : list (string * zschema))
              : list zissue * list (string * jvalue) :=
            match fs with
            | [] => ([], [])
            | (k, sk) :: rest =>
                let '(iss, out) := zparse sk (path ++ [k])%list (lookup k l) in
                let '(iss', outs) := go rest in
                ((iss ++ iss')%list,
                 match out with Some x => (k, x) :: outs | None => outs end)
            end in
          let '(iss, outs) := go fields in (iss, Some (JObj outs))
      | _ => ([invalid_type path "object" v], None)
      end
  end.

(** [schema.parse(x)]: the value, or a thrown [ZodError]. *)
Definition parse (s : zschema) (x : jvalue) : outcome jvalue :=
  match zparse s [] (Some x) with
  | ([], Some out) => Ok out
  | ([], None) => Ok JNull
  | (iss, _) => Throw (ZodError iss)
  end.

End Zod.
Import Zod.

(* ------------------------------------------------------------------ *)
(** ** Validation wrapper: [createTool] *)

Module ToolFactory.

(** The object [createTool] returns: [{ name, inputSchema, outputSchema,
    execute, call }]. Fields a module export may lack are options. *)
Record ToolValue := {
  tv_name : string;
  tv_description : option string;
  tv_inputSchema : option zschema;
  tv_outputSchema : option zschema;
  tv_execute : option (jvalue -> outcome jvalue);
  tv_call : option (jvalue -> outcome jvalue)
}.

(** The message built in the [ZodError] branch:
    [`Validation failed: ${error.errors.map(e => `${e.path.join('.')}: ${e.message}`).join(', ')}`] *)
Definition join (sep : string) (l : list string) : string :=
  match l with
  | [] => ""
  | x :: r => fold_left (fun acc y => acc ++ sep ++ y) r x
  end.

Definition validation_message (iss : list zissue) : string :=
  "Validation failed: "
  ++ join ", " (map (fun i => join "." (zi_path i) ++ ": " ++ zi_message i) iss).

(** The [catch] block of [call]. *)
Definition handle (name : string) (e : jserror) : jserror :=
  match e with
  | ZodError iss => ToolError name (validation_message iss) (Some e) false
  | ToolError _ _ _ _ => e
  | PlainError m => ToolError name m (Some e) false
  | Thrown _ => ToolError name "Unknown error occurred" None false
  end.

(** [call]: validate input, execute, validate output; the three steps share
    one [try]. *)
Definition call (name : string) (input output : zschema)
    (execute : jvalue -> outcome jvalue) (rawInput : jvalue) : outcome jvalue :=
  let body :=
    validatedInput <- Zod.parse input rawInput ;;
    result <- execute validatedInput ;;
    Zod.parse output result in
  match body with
  | Ok v => Ok v
  | Throw e => Throw (handle name e)
  end.

Definition createTool (name : string) (input output : zschema)
    (execute : jvalue -> outcome jvalue) : ToolValue :=
  {| tv_name := name;
     tv_description := None;
     tv_inputSchema := Some input;
     tv_outputSchema := Some output;
     tv_execute := Some execute;
     tv_call := Some (call name input output execute) |}.

End ToolFactory.
Import ToolFactory.

(* ------------------------------------------------------------------ *)
(** ** Registry, metadata loading and the request handlers
    ([src/mcp-server.ts]) *)

(** A module namespace as [await import(path)] yields it. *)
Record ModuleNs := {
  mod_named : string -> option ToolValue;   (** [module[toolName]] *)
  mod_default : option ToolValue            (** [module.default] *)
}.

(** The MCP [Tool] metadata object. *)
Record ToolMeta := {
  tm_name : string;
  tm_description : string;
  tm_inputSchema : jvalue
}.

Record ToolRegistryEntry := {
  serverName : string;
  toolName : string;
  metadata : ToolMeta
}.

(** A JS [Map]: entries in insertion order; [set] on a present key
    replaces the value in place. *)
Definition Registry := list (string * ToolRegistryEntry).

Fixpoint map_get (k : string) (m : Registry) : option ToolRegistryEntry :=
  match m with
  | [] => None
  | (k', v) :: r => if String.eqb k' k then Some v else map_get k r
  end.

Fixpoint map_set (k : string) (v : ToolRegistryEntry) (m : Registry) : Registry :=
  match m with
  | [] => [(k, v)]
  | (k', v') :: r =>
      if String.eqb k' k then (k', v) :: r else (k', v') :: map_set k v r
  end.

(** [String.prototype.replace] with a string pattern: first occurrence. *)
Fixpoint replace_first (pat rep s : string) : string :=
  if String.prefix pat s then rep ++ substring (String.length pat) (String.length s - String.length pat) s
  else match s with
       | EmptyString => EmptyString
       | String c r => String c (replace_first pat rep r)
       end.

(** The flattening step of [loadToolMetadata] on the document returned by
    [zodToJsonSchema]. *)
Definition flatten_schema (fullSchema : jvalue) : outcome jvalue :=
  if truthy (get fullSchema "definitions") && truthy (get fullSchema "$ref") then
    match get fullSchema "$ref" with
    | Some (JStr r) =>
        let refKey := replace_first "#/definitions/" "" r in
        let found := match get fullSchema "definitions" with
                     | Some defs => get defs refKey
                     | None => None
                     end in
        let jsonSchema := match found with
                          | Some d => if truthy (Some d) then d else fullSchema
                          | None => fullSchema
                          end in
        Ok (delete jsonSchema "$schema")
    | _ => Throw (PlainError "fullSchema.$ref.replace is not a function")
    end
  else Ok fullSchema.

Definition extractToolDescription (tool : ToolValue) (server tool_ : string) : string :=
  match tool.(tv_description) with
  | Some d => if String.eqb d "" then
                if String.eqb tool.(tv_name) "" then server ++ " " ++ tool_ ++ " tool"
                else tool.(tv_name) ++ " tool"
              else d
  | None => if String.eqb tool.(tv_name) "" then server ++ " " ++ tool_ ++ " tool"
            else tool.(tv_name) ++ " tool"
  end.

Definition modulePath (server tool : string) : string :=
  "./servers/" ++ server ++ "/" ++ tool ++ ".js".

(** [module[toolName] || module.default] *)
Definition pick_tool (m : ModuleNs) (tool : string) : option ToolValue :=
  match mod_named m tool with Some t => Some t | None => mod_default m end.

(** Log lines of [initializeToolRegistry] that tell the outcome per tool. *)
Inductive log_entry :=
| LogRegistered : string -> log_entry          (** 'Registered tool metadata' *)
| LogFailed : string -> string -> string -> log_entry.
    (** 'Failed to load tool metadata' with server, tool, [error.message] *)

(** The text content of a tool result. *)
Definition text_content (text : string) : jvalue :=
  JObj [("type", JStr "text"); ("text", JStr text)].

(** [{ content: [{ type: 'text', text: JSON.stringify(result, null, 2) }] }] *)
Definition success_response (result : jvalue) : jvalue :=
  JObj [("content", JArr [text_content (stringify result)])].

(** [{ content: [{ type: 'text', text: `Error executing ${toolName}: ${error.message}` }], isError: true }] *)
Definition error_response (name : string) (e : jserror) : jvalue :=
  JObj [("content", JArr [text_content ("Error executing " ++ name ++ ": " ++ message e)]);
        ("isError", JBool true)].

(** [Object.keys(result)], evaluated for the log line. *)
Definition object_keys (v : jvalue) : outcome (list string) :=
  match v with
  | JNull => Throw (PlainError "Cannot convert undefined or null to object")
  | JObj l => Ok (map fst l)
  | _ => Ok []
  end.

(** [args || {}] where [arguments] is an optional record. *)
Definition args_or_empty (args : option (list (string * jvalue))) : jvalue :=
  match args with Some l => JObj l | None => JObj [] end.

Section Server.

(** [await import(path)]: the module namespace, or [None] when the import
    rejects. A fresh import per call gives the same namespace. *)
Variable modules : string -> option ModuleNs.

(** The [zod-to-json-schema] library call
    [zodToJsonSchema(schema, { name, $refStrategy: 'none' })]. *)
Variable zodToJsonSchema : zschema -> string -> outcome jvalue.

Definition import (path : string) : outcome ModuleNs :=
  match modules path with
  | Some m => Ok m
  | None => Throw (PlainError ("Cannot find module '" ++ path ++ "'"))
  end.

Definition loadToolMetadata (server tool : string) : outcome ToolMeta :=
  m <- import (modulePath server tool) ;;
  t <- match pick_tool m tool with
       | Some t => Ok t
       | None => Throw (PlainError ("Tool " ++ tool ++ " not found in "
                                    ++ modulePath server tool))
       end ;;
  jsonSchema <- match tv_inputSchema t with
                | Some sch =>
                    fullSchema <- zodToJsonSchema sch (mcpToolName server tool ++ "_input") ;;
                    flatten_schema fullSchema
                | None => Ok (JObj [("type", JStr "object"); ("properties", JObj [])])
                end ;;
  Ok {| tm_name := mcpToolName server tool;
        tm_description := extractToolDescription t server tool;
        tm_inputSchema := jsonSchema |}.

(** One iteration of the inner loop, with its [try]/[catch]. *)
Definition register_one (st : Registry * list log_entry) (p : string * string)
  : Registry * list log_entry :=
  let '(reg, logs) := st in
  let '(server, tool) := p in
  let key := mcpToolName server tool in
  match loadToolMetadata server tool with
  | Ok md =>
      (map_set key {| serverName := server; toolName := tool; metadata := md |} reg,
       (logs ++ [LogRegistered key])%list)
  | Throw e => (reg, (logs ++ [LogFailed server tool (message e)])%list)
  end.

(** [initializeToolRegistry], run once on the empty module-level [Map]. *)
Definition initializeToolRegistry (servers : list ServerMetadata)
  : Registry * list log_entry :=
  fold_left register_one (catalog servers) ([], []).

(** tools/list handler. *)
Definition listTools (reg : Registry) : list ToolMeta :=
  map (fun kv => metadata (snd kv)) reg.

(** The rest of the [try] block once [execute] has settled. *)
Definition finish (name : string) (r : outcome jvalue) : outcome jvalue :=
  match (result <- r ;; _ <- object_keys result ;; Ok (success_response result)) with
  | Ok resp => Ok resp
  | Throw e => Ok (error_response name e)
  end.

(** Loading of the implementation inside the [try] block. *)
Definition load_execute (entry : ToolRegistryEntry) (name : string)
  : outcome (jvalue -> outcome jvalue) :=
  m <- import (modulePath (serverName entry) (toolName entry)) ;;
  match pick_tool m (toolName entry) with
  | Some t => match tv_execute t with
              | Some ex => Ok ex
              | None => Throw (PlainError ("Tool " ++ name ++ " does not have an execute function"))
              end
  | None => Throw (PlainError ("Tool " ++ name ++ " does not have an execute function"))
  end.

(** tools/call handler: a rejected promise is [Throw]. *)
Definition callTool (reg : Registry) (name : string)
    (args : option (list (string * jvalue))) : outcome jvalue :=
  match map_get name reg with
  | None => Throw (PlainError ("Unknown tool: " ++ name))
  | Some entry =>
      match load_execute entry name with
      | Ok ex => finish name (ex (args_or_empty args))
      | Throw e => Ok (error_response name e)
      end
  end.

End Server.

(** The SDK's request dispatch ([Protocol._onrequest] of
    [@modelcontextprotocol/sdk]): a resolved handler gives a JSON-RPC result,
    a rejected one a JSON-RPC error with [ErrorCode.InternalError] (no error
    of this code carries a numeric [code]) and [error.message ?? 'Internal error']. *)
Inductive rpc_response :=
| RpcResult : jvalue -> jvalue -> rpc_response      (** id, result *)
| RpcError : jvalue -> Z -> string -> rpc_response. (** id, code, message *)

Definition sdk_respond (id : jvalue) (h : outcome jvalue) : rpc_response :=
  match h with
  | Ok r => RpcResult id r
  | Throw (Thrown _) => RpcError id (-32603) "Internal error"
  | Throw e => RpcError id (-32603) (message e)
  end.

(* ------------------------------------------------------------------ *)
(** ** HTTP binding: [bearerAuth] and the Express app of [startMcpServer] *)

Module Http.

Fixpoint lower (s : string) : string :=
  match s with
  | EmptyString => EmptyString
  | String c r => String (to_lower c) (lower r)
  end.

(** Express matching (case-insensitive, non-strict) of a route path. *)
Definition route_matches (route p : string) : bool :=
  String.eqb (lower p) route || String.eqb (lower p) (route ++ "/").

(** [app.use(route, ...)] matches the route and everything below it. *)
Definition use_matches (route p : string) : bool :=
  String.eqb (lower p) route || String.prefix (route ++ "/") (lower p).

(** What [express.json()] finds in the request body. *)
Inductive body :=
| NoJsonBody : body              (** no body, or not [application/json] *)
| JsonBody : jvalue -> body      (** parsed into [req.body] *)
| MalformedJson : body.          (** [application/json] that does not parse *)

Record Request := {
  rq_method : string;
  rq_path : string;
  rq_authorization : option string;   (** [req.headers.authorization] *)
  rq_body : body
}.

Inductive http_result :=
| Respond : Z -> jvalue -> http_result    (** [res.status(s).json(body)] *)
| Dispatch : jvalue -> http_result        (** handed to a fresh MCP server *)
| ErrorPage : Z -> http_result            (** Express's default error handler *)
| NotFound : http_result.                 (** no route matched *)

Definition rpc_error_body (code : Z) (msg : string) : jvalue :=
  JObj [("jsonrpc", JStr "2.0");
        ("error", JObj [("code", JNum code); ("message", JStr msg)]);
        ("id", JNull)].

Inductive auth_result :=
| AuthReject : Z -> jvalue -> auth_result
| AuthNext : auth_result.

Definition bearerAuth (apiKey : string) (authHeader : option string) : auth_result :=
  match authHeader with
  | Some h =>
      if String.prefix "Bearer " h then
        let token := substring 7 (String.length h - 7) h in
        if negb (String.eqb token apiKey) then
          AuthReject 403 (rpc_error_body (-32002) "Invalid API key")
        else AuthNext
      else AuthReject 401 (rpc_error_body (-32001)
             "Missing or invalid Authorization header. Expected: Bearer <token>")
  | None => AuthReject 401 (rpc_error_body (-32001)
             "Missing or invalid Authorization header. Expected: Bearer <token>")
  end.

(** [app.get] routes also answer [HEAD]. *)
Definition is_get (m : string) : bool := String.eqb m "GET" || String.eqb m "HEAD".

Definition req_body_value (b : body) : jvalue :=
  match b with JsonBody v => v | _ => JNull end.

(** The routes registered after [bearerAuth]. *)
Definition mcp_routes (rq : Request) : http_result :=
  if route_matches "/mcp" (rq_path rq) then
    if String.eqb (rq_method rq) "POST" then Dispatch (req_body_value (rq_body rq))
    else if is_get (rq_method rq) then
      Respond 405 (rpc_error_body (-32601) "SSE not supported in stateless mode")
    else if String.eqb (rq_method rq) "DELETE" then
      Respond 405 (rpc_error_body (-32601)
                     "Session termination not supported in stateless mode")
    else NotFound
  else NotFound.

(** The middleware stack in registration order: [express.json()], the
    [/health] route, [bearerAuth] on [/mcp], the [/mcp] routes. *)
Definition app (apiKey : string) (toolCount : Z) (rq : Request) : http_result :=
  match rq_body rq with
  | MalformedJson => ErrorPage 400
  | _ =>
      if is_get (rq_method rq) && route_matches "/health" (rq_path rq) then
        Respond 200 (JObj [("status", JStr "ok"); ("tools", JNum toolCount)])
      else if use_matches "/mcp" (rq_path rq) then
        match bearerAuth apiKey (rq_authorization rq) with
        | AuthReject st b => Respond st b
        | AuthNext => mcp_routes rq
        end
      else NotFound
  end.

End Http.

(* ------------------------------------------------------------------ *)
(** ** Entry point [main] ([src/index.ts]) and [config.server.apiKey] *)

Module Main.

(** [env(key, defaultValue)] for a string default; [penv] is [process.env]
    after [dotenv] has loaded [.env]. *)
Definition env_str (penv : string -> option string) (key default : string) : string :=
  match penv key with None => default | Some v => v end.

Definition config_server_apiKey (penv : string -> option string) : string :=
  env_str penv "MCP_API_KEY" "".

Inductive effect :=
| LogInfo : string -> effect
| LogWarn : string -> effect
| LogFatal : string -> effect
| Exit : Z -> effect
| StartMcpServer : effect.     (** [await startMcpServer()]: registry, routes, [app.listen] *)

Definition fatal_msg : string :=
  "MCP_API_KEY is not set. Server requires a Bearer token for authentication. Set MCP_API_KEY in your environment or .env file.".

(** The effects of [main] up to the call of [startMcpServer] (or the exit);
    [process.exit] ends the process at once. *)
Definition main (penv : string -> option string) : list effect :=
  LogInfo "Starting MCP Server with Anthropic guidelines + MCP SDK" ::
  if String.eqb (config_server_apiKey penv) "" then
    [LogFatal fatal_msg; Exit 1]
  else
    (if String.eqb (env_str penv "GOOGLE_CLIENT_ID" "") ""
        || String.eqb (env_str penv "GOOGLE_CLIENT_SECRET" "") ""
     then [LogWarn "Google OAuth2 credentials not configured - YouTube/Gmail tools will not work"]
     else [])
    ++ (if String.eqb (env_str penv "AI_API_KEY" "") ""
        then [LogWarn "AI_API_KEY not set - video summaries will use fallback (truncation)"]
        else [])
    ++ [StartMcpServer].

End Main.

(* ------------------------------------------------------------------ *)
(** ** Statement-side definitions *)

(** The rule in the words of the spec: hyphens of the group become
    underscores; ["__"]; every uppercase letter of the operation becomes an
    underscore followed by its lowercase form. *)
Definition wire_name_spec (group op : string) : string :=
  string_of_list_ascii
    (map (fun c => if Ascii.eqb c "-" then "_"%char else c) (list_ascii_of_string group)
     ++ ["_"%char; "_"%char]
     ++ flat_map (fun c => if is_upper c then ["_"%char; to_lower c] else [c])
                 (list_ascii_of_string op))%list.

(** Every key of the registry is the wire name of the entry it holds, and
    its metadata carries the same name. *)
Definition keys_consistent (reg : Registry) : Prop :=
  forall k e, map_get k reg = Some e ->
    k = mcpToolName (serverName e) (toolName e) /\ tm_name (metadata e) = k.

Definition servers_ab : list ServerMetadata := [
  {| sm_name := "alpha"; sm_description := ""; sm_version := "1.0.0"; sm_tools := ["doThing"] |};
  {| sm_name := "beta"; sm_description := ""; sm_version := "1.0.0"; sm_tools := ["getValue"] |}
].

(** No object anywhere in the document has a ["$ref"] key. *)
Fixpoint no_ref (v : jvalue) : bool :=
  match v with
  | JArr l => forallb no_ref l
  | JObj l => forallb (fun kv => negb (String.eqb (fst kv) "$ref") && no_ref (snd kv)) l
  | _ => true
  end.

(** The document is keyed by [$ref: '#/definitions/<key>'] into a
    [definitions] object whose [key] entry is the object [d]. *)
Definition ref_keyed (full : jvalue) (key : string) (d : jvalue) : Prop :=
  exists defs, get full "definitions" = Some (JObj defs) /\
    get full "$ref" = Some (JStr ("#/definitions/" ++ key)) /\
    lookup key defs = Some d /\ (exists fields, d = JObj fields).

(** What [zodToJsonSchema] with [$refStrategy: 'none'] returns for the
    input schema of every tool the loader can import: either a document
    keyed by a [$ref] into [definitions] whose target has no [$ref] itself,
    or a document without any [$ref]. *)
Definition converter_output_ok (modules : string -> option ModuleNs)
    (zod : zschema -> string -> outcome jvalue) : Prop :=
  forall server tool m tv sch full,
    modules (modulePath server tool) = Some m ->
    pick_tool m tool = Some tv ->
    tv_inputSchema tv = Some sch ->
    zod sch (mcpToolName server tool ++ "_input") = Ok full ->
    (exists key d, ref_keyed full key d /\ no_ref d = true) \/ no_ref full = true.

(** Every registry entry holds what [loadToolMetadata] returned for it. *)
Definition entries_loaded (modules : string -> option ModuleNs)
    (zod : zschema -> string -> outcome jvalue) (reg : Registry) : Prop :=
  forall k e, map_get k reg = Some e ->
    loadToolMetadata modules zod (serverName e) (toolName e) = Ok (metadata e).

(* ------------------------------------------------------------------ *)
(** ** A concrete catalog: [alpha]/[doThing] (requires [x: number]) and
    [beta]/[getValue] *)

(** The JSON Schema [zod-to-json-schema] emits for these schemas. *)
Fixpoint schema_json (s : zschema) : jvalue :=
  match s with
  | ZAny => JObj []
  | ZNumber => JObj [("type", JStr "number")]
  | ZString => JObj [("type", JStr "string")]
  | ZBoolean => JObj [("type", JStr "boolean")]
  | ZOptional s' => schema_json s'
  | ZDefault s' d =>
      match schema_json s' with JObj l => JObj (l ++ [("default", d)])%list | v => v end
  | ZObject fields =>
      JObj [("type", JStr "object");
            ("properties", JObj (map (fun kv => (fst kv, schema_json (snd kv))) fields));
            ("required", JArr (flat_map (fun kv => match snd kv with
                                                   | ZOptional _ | ZDefault _ _ => []
                                                   | _ => [JStr (fst kv)] end) fields));
            ("additionalProperties", JBool false)]
  end.

(** [zodToJsonSchema(schema, { name, $refStrategy: 'none' })]: the schema
    under [definitions[name]], reached through a top-level [$ref]. *)
Definition demo_zodToJsonSchema (sch : zschema) (name : string) : outcome jvalue :=
  Ok (JObj [("$ref", JStr ("#/definitions/" ++ name));
            ("definitions", JObj [(name, schema_json sch)]);
            ("$schema", JStr "http://json-schema.org/draft-07/schema#")]).

Definition doThing_input : zschema := ZObject [("x", ZNumber)].

(** [execute] of [doThing] reads nothing from its input. *)
Definition doThing : ToolValue :=
  createTool "alpha__do_thing" doThing_input ZAny
    (fun _ => Ok (JObj [("done", JBool true)])).

Definition getValue : ToolValue :=
  createTool "beta__get_value" (ZObject []) ZAny
    (fun _ => Ok (JObj [("value", JNum 42)])).

Definition demo_modules (path : string) : option ModuleNs :=
  if String.eqb path "./servers/alpha/doThing.js" then
    Some {| mod_named := fun n => if String.eqb n "doThing" then Some doThing else None;
            mod_default := None |}
  else if String.eqb path "./servers/beta/getValue.js" then
    Some {| mod_named := fun n => if String.eqb n "getValue" then Some getValue else None;
            mod_default := None |}
  else None.

Definition demo_registry : Registry :=
  fst (initializeToolRegistry demo_modules demo_zodToJsonSchema servers_ab).

(** The log line [initializeToolRegistry] writes for one catalog pair. *)
Definition registration_log (modules : string -> option ModuleNs)
    (zod : zschema -> string -> outcome jvalue) (p : string * string) : log_entry :=
  match loadToolMetadata modules zod (fst p) (snd p) with
  | Ok _ => LogRegistered (mcpToolName (fst p) (snd p))
  | Throw e => LogFailed (fst p) (snd p) (message e)
  end.

Definition wire_of (p : string * string) : string := mcpToolName (fst p) (snd p).

(* ------------------------------------------------------------------ *)
(** ** [JSON.parse] on the value model

    ECMAScript's [JSON.parse(text)] (no reviver) over the same value model
    as [stringify]: numbers are integers, so a number with a fraction or an
    exponent is outside the model and rejected, and so is a [\uXXXX] escape
    above [0xFF] (strings are 8-bit). Duplicate keys keep the first
    position and the last value, as [CreateDataProperty] does. *)

Module JsonParse.
Local Open Scope list_scope.

Definition is_ws (c : ascii) : bool :=
  let n := nat_of_ascii c in ((n =? 32) || (n =? 9) || (n =? 10) || (n =? 13))%nat.

Fixpoint skip_ws (l : list ascii) : list ascii :=
  match l with
  | [] => []
  | c :: r => if is_ws c then skip_ws r else l
  end.

(** The rest of a literal after its first character. *)
Fixpoint expect (p l : list ascii) : option (list ascii) :=
  match p with
  | [] => Some l
  | c :: p' =>
      match l with
      | [] => None
      | c' :: l' => if Ascii.eqb c c' then expect p' l' else None
      end
  end.

Definition unescape (e : ascii) : option ascii :=
  if Ascii.eqb e dquote then Some dquote
  else if Ascii.eqb e "\"%char then Some "\"%char
  else if Ascii.eqb e "/"%char then Some "/"%char
  else if Ascii.eqb e "b"%char then Some (ascii_of_nat 8)
  else if Ascii.eqb e "f"%char then Some (ascii_of_nat 12)
  else if Ascii.eqb e "n"%char then Some (ascii_of_nat 10)
  else if Ascii.eqb e "r"%char then Some (ascii_of_nat 13)
  else if Ascii.eqb e "t"%char then Some (ascii_of_nat 9)
  else None.

Definition hex_val (c : ascii) : option nat :=
  let n := nat_of_ascii c in
  if ((48 <=? n) && (n <=? 57))%nat then Some (n - 48)%nat
  else if ((97 <=? n) && (n <=? 102))%nat then Some (n - 87)%nat
  else if ((65 <=? n) && (n <=? 70))%nat then Some (n - 55)%nat
  else None.

Definition hex4 (a b c d : ascii) : option nat :=
  match hex_val a, hex_val b, hex_val c, hex_val d with
  | Some x, Some y, Some z, Some w => Some (4096 * x + 256 * y + 16 * z + w)%nat
  | _, _, _, _ => None
  end.

Definition cons_fst (c : ascii) (o : option (list ascii * list ascii))
  : option (list ascii * list ascii) :=
  match o with
  | Some (s, t) => Some (c :: s, t)
  | None => None
  end.

(** The characters of a string literal after its opening quote, and the
    text after its closing quote. *)
Fixpoint parse_chars (l : list ascii) : option (list ascii * list ascii) :=
  match l with
  | [] => None
  | c :: r =>
      if Ascii.eqb c dquote then Some ([], r)
      else if Ascii.eqb c "\"%char then
        match r with
        | [] => None
        | e :: r' =>
            if Ascii.eqb e "u"%char then
              match r' with
              | h1 :: h2 :: h3 :: h4 :: r'' =>
                  match hex4 h1 h2 h3 h4 with
                  | Some n => if (n <? 256)%nat then cons_fst (ascii_of_nat n) (parse_chars r'')
                              else None
                  | None => None
                  end
              | _ => None
              end
            else match unescape e with
                 | Some c' => cons_fst c' (parse_chars r')
                 | None => None
                 end
        end
      else if (nat_of_ascii c <? 32)%nat then None
      else cons_fst c (parse_chars r)
  end.

Definition digit_ctor (c : ascii) : option (Decimal.uint -> Decimal.uint) :=
  if Ascii.eqb c "0"%char then Some Decimal.D0
  else if Ascii.eqb c "1"%char then Some Decimal.D1
  else if Ascii.eqb c "2"%char then Some Decimal.D2
  else if Ascii.eqb c "3"%char then Some Decimal.D3
  else if Ascii.eqb c "4"%char then Some Decimal.D4
  else if Ascii.eqb c "5"%char then Some Decimal.D5
  else if Ascii.eqb c "6"%char then Some Decimal.D6
  else if Ascii.eqb c "7"%char then Some Decimal.D7
  else if Ascii.eqb c "8"%char then Some Decimal.D8
  else if Ascii.eqb c "9"%char then Some Decimal.D9
  else None.

Fixpoint read_digits (l : list ascii) : Decimal.uint * list ascii :=
  match l with
  | [] => (Decimal.Nil, [])
  | c :: r =>
      match digit_ctor c with
      | Some k => let '(d, t) := read_digits r in (k d, t)
      | None => (Decimal.Nil, l)
      end
  end.

(** [int = "0" | [1-9] [0-9]*] *)
Definition parse_int (l : list ascii) : option (Z * list ascii) :=
  match l with
  | [] => None
  | c :: r =>
      if Ascii.eqb c "0"%char then Some (0%Z, r)
      else match digit_ctor c with
           | Some k => let '(d, t) := read_digits r in Some (Z.of_N (N.of_uint (k d)), t)
           | None => None
           end
  end.

Definition number_tail (neg : bool) (z : Z) (t : list ascii) : option (jvalue * list ascii) :=
  let v := JNum (if neg then Z.opp z else z) in
  match t with
  | [] => Some (v, t)
  | c :: _ =>
      if Ascii.eqb c "."%char || Ascii.eqb c "e"%char || Ascii.eqb c "E"%char then None
      else Some (v, t)
  end.

Definition parse_number (l : list ascii) : option (jvalue * list ascii) :=
  match l with
  | [] => None
  | c :: r =>
      if Ascii.eqb c "-"%char then
        match parse_int r with Some (z, t) => number_tail true z t | None => None end
      else
        match parse_int l with Some (z, t) => number_tail false z t | None => None end
  end.

(** The text after an immediately closing bracket, if there is one. *)
Definition after_open (close : ascii) (r : list ascii) : option (list ascii) :=
  match skip_ws r with
  | c :: t => if Ascii.eqb c close then Some t else None
  | [] => None
  end.

(** [obj[key] = value] on a fresh object, member after member. *)
Fixpoint assoc_set (k : string) (v : jvalue) (l : list (string * jvalue))
  : list (string * jvalue) :=
  match l with
  | [] => [(k, v)]
  | (k', v') :: r => if String.eqb k' k then (k', v) :: r else (k', v') :: assoc_set k v r
  end.

Definition obj_of_members (m : list (string * jvalue)) : list (string * jvalue) :=
  fold_left (fun acc kv => assoc_set (fst kv) (snd kv) acc) m [].

(** [fuel] bounds the nesting and the number of elements. *)
Fixpoint parse_value (fuel : nat) (l : list ascii) {struct fuel}
  : option (jvalue * list ascii) :=
  match fuel with
  | O => None
  | S f =>
      match skip_ws l with
      | [] => None
      | c :: r =>
          if Ascii.eqb c "n"%char then
            option_map (fun t => (JNull, t)) (expect (list_ascii_of_string "ull") r)
          else if Ascii.eqb c "t"%char then
            option_map (fun t => (JBool true, t)) (expect (list_ascii_of_string "rue") r)
          else if Ascii.eqb c "f"%char then
            option_map (fun t => (JBool false, t)) (expect (list_ascii_of_string "alse") r)
          else if Ascii.eqb c dquote then
            match parse_chars r with
            | Some (s, t) => Some (JStr (string_of_list_ascii s), t)
            | None => None
            end
          else if Ascii.eqb c "["%char then
            match after_open "]"%char r with
            | Some t => Some (JArr [], t)
            | None =>
                match parse_elems f r with
                | Some (vs, t) => Some (JArr vs, t)
                | None => None
                end
            end
          else if Ascii.eqb c "{"%char then
            match after_open "}"%char r with
            | Some t => Some (JObj [], t)
            | None =>
                match parse_members f r with
                | Some (m, t) => Some (JObj (obj_of_members m), t)
                | None => None
                end
            end
          else parse_number (c :: r)
      end
  end
with parse_elems (fuel : nat) (l : list ascii) {struct fuel}
  : option (list jvalue * list ascii) :=
  match fuel with
  | O => None
  | S f =>
      match parse_value f l with
      | None => None
      | Some (v, t) =>
          match skip_ws t with
          | [] => None
          | c :: t' =>
              if Ascii.eqb c ","%char then
                match parse_elems f t' with
                | Some (vs, t'') => Some (v :: vs, t'')
                | None => None
                end
              else if Ascii.eqb c "]"%char then Some ([v], t')
              else None
          end
      end
  end
with parse_members (fuel : nat) (l : list ascii) {struct fuel}
  : option (list (string * jvalue) * list ascii) :=
  match fuel with
  | O => None
  | S f =>
      match skip_ws l with
      | [] => None
      | c :: r =>
          if Ascii.eqb c dquote then
            match parse_chars r with
            | None => None
            | Some (ks, t) =>
                match skip_ws t with
                | [] => None
                | c1 :: t1 =>
                    if Ascii.eqb c1 ":"%char then
                      match parse_value f t1 with
                      | None => None
                      | Some (v, t2) =>
                          match skip_ws t2 with
                          | [] => None
                          | c2 :: t3 =>
                              if Ascii.eqb c2 ","%char then
                                match parse_members f t3 with
                                | Some (m, t4) => Some ((string_of_list_ascii ks, v) :: m, t4)
                                | None => None
                                end
                              else if Ascii.eqb c2 "}"%char then
                                Some ([(string_of_list_ascii ks, v)], t3)
                              else None
                          end
                      end
                    else None
                end
            end
          else None
      end
  end.

(** [JSON.parse(text)]: [None] is a thrown [SyntaxError]. *)
Definition json_parse (text : string) : option jvalue :=
  let l := list_ascii_of_string text in
  match parse_value (S (List.length l)) l with
  | Some (v, t) => match skip_ws t with [] => Some v | _ => None end
  | None => None
  end.

End JsonParse.

(** Values [JSON.stringify] prints as in the model: object keys are
    distinct, and numbers are integers below [10^21] in magnitude (from
    there on [Number::toString] switches to exponent notation). *)
Fixpoint nodup_keys (ks : list string) : bool :=
  match ks with
  | [] => true
  | k :: r => negb (existsb (String.eqb k) r) && nodup_keys r
  end.

Fixpoint json_shaped (v : jvalue) : bool :=
  match v with
  | JNum z => (Z.abs z <? 10 ^ 21)%Z
  | JArr l => forallb json_shaped l
  | JObj l => nodup_keys (map fst l) && forallb (fun kv => let '(_, x) := kv in json_shaped x) l
  | _ => true
  end.

(** Whether a [tools/call] response carries a [structuredContent] member. *)
Definition has_structured_copy (resp : jvalue) : bool :=
  match get resp "structuredContent" with Some _ => true | None => false end.


(** What may follow a number in the text so that it ends there. *)
Definition num_end (rest : list ascii) : bool :=
  match rest with
  | [] => true
  | c :: _ =>
      match JsonParse.digit_ctor c with
      | Some _ => false
      | None => negb (Ascii.eqb c "."%char || Ascii.eqb c "e"%char || Ascii.eqb c "E"%char)
      end
  end.

(** The parser fuel a value needs. *)
Fixpoint jsize (v : jvalue) : nat :=
  match v with
  | JArr l => S (fold_right (fun x acc => S (jsize x + acc)) 0%nat l)
  | JObj l => S (fold_right (fun kv acc => let '(_, x) := kv in S (jsize x + acc)) 0%nat l)
  | _ => 1%nat
  end.

(** [v] printed at any depth and followed by [rest] parses back to [v]. *)
Definition roundtrips (v : jvalue) : Prop :=
  forall d n rest, json_shaped v = true -> (jsize v <= n)%nat -> num_end rest = true ->
    JsonParse.parse_value n (ser d v ++ rest)%list = Some (v, rest).

(* ------------------------------------------------------------------ *)
(** ** [env] of [src/config.ts] for number and boolean defaults *)

Module Config.

(** A JS Number as [parseInt] with radix 10 produces one: an integer
    value, negative zero, or an infinity ([NInf true] is [-Infinity]).
    [+0] is [NInt 0]. *)
Inductive number :=
| NInt : Z -> number
| NNegZero : number
| NInf : bool -> number.

(** StrWhiteSpaceChar among the code units below 256: TAB, LF, VT, FF, CR,
    SPACE and NO-BREAK SPACE. *)
Definition is_js_space (c : ascii) : bool :=
  let n := nat_of_ascii c in
  ((9 <=? n) && (n <=? 13))%nat || (n =? 32)%nat || (n =? 160)%nat.

Fixpoint trim_start (l : list ascii) : list ascii :=
  match l with
  | [] => []
  | c :: r => if is_js_space c then trim_start r else l
  end.

Definition digit_value (c : ascii) : option N :=
  let n := nat_of_ascii c in
  if ((48 <=? n) && (n <=? 57))%nat then Some (N.of_nat (n - 48)) else None.

(** The longest prefix of radix-10 digits: the number of digits read and
    the integer they denote. *)
Fixpoint digits_prefix (l : list ascii) (acc : N) (cnt : nat) : nat * N :=
  match l with
  | [] => (cnt, acc)
  | c :: r =>
      match digit_value c with
      | Some d => digits_prefix r (d + 10 * acc)%N (S cnt)
      | None => (cnt, acc)
      end
  end.

(** The Number value for the integer [m] (ECMAScript 6.1.6.1): the nearest
    double, ties to the even significand; [None] when that is [2^1024],
    i.e. [Infinity]. Integers below [2^53] are exact. *)
Definition round_double (m : N) : option N :=
  let r :=
    if (m <? 2 ^ 53)%N then m
    else
      let s := (N.size m - 53)%N in
      let q := N.shiftr m s in
      let rem := (m - N.shiftl q s)%N in
      let half := N.shiftl 1 (s - 1) in
      let q' := if (half <? rem)%N || ((rem =? half)%N && N.odd q) then (q + 1)%N else q in
      N.shiftl q' s in
  if (r <? 2 ^ 1024)%N then Some r else None.

(** [parseInt(string, 10)] (ECMAScript 19.2.5) on a string of code units
    below 256; [None] is [NaN]. *)
Definition parseInt10 (s : string) : option number :=
  let s1 := trim_start (list_ascii_of_string s) in
  let '(neg, s2) :=
    match s1 with
    | c :: r => if Ascii.eqb c "-" then (true, r)
                else if Ascii.eqb c "+" then (false, r) else (false, s1)
    | [] => (false, s1)
    end in
  let '(cnt, m) := digits_prefix s2 0 0 in
  if (cnt =? 0)%nat then None
  else Some (match round_double m with
             | None => NInf neg
             | Some r =>
                 if (r =? 0)%N then (if neg then NNegZero else NInt 0)
                 else NInt (if neg then - Z.of_N r else Z.of_N r)
             end).

(** The text after a digit run: empty, or starting with a non-digit. *)
Definition first_nondigit (rest : list ascii) : Prop :=
  match rest with [] => True | c :: _ => digit_value c = None end.

(** [env(key, defaultValue)] for a number default. *)
Definition env_num (penv : string -> option string) (key : string) (default : number)
  : number :=
  match penv key with
  | None => default
  | Some value => match parseInt10 value with None => default | Some parsed => parsed end
  end.

(** [String.prototype.toLowerCase] on one code unit below 256: the ASCII
    capitals and the Latin-1 capitals U+00C0..U+00DE except U+00D7 move
    down by 32; every other code unit is its own lowercase. *)
Definition js_lower_char (c : ascii) : ascii :=
  let n := nat_of_ascii c in
  if ((65 <=? n) && (n <=? 90))%nat || ((192 <=? n) && (n <=? 222) && negb (n =? 215))%nat
  then ascii_of_nat (n + 32) else c.

Fixpoint js_toLowerCase (s : string) : string :=
  match s with
  | EmptyString => EmptyString
  | String c r => String (js_lower_char c) (js_toLowerCase r)
  end.

(** [env(key, defaultValue)] for a boolean default. *)
Definition env_bool (penv : string -> option string) (key : string) (default : bool) : bool :=
  match penv key with
  | None => default
  | Some value => String.eqb (js_toLowerCase value) "true"
  end.

End Config.

(* ------------------------------------------------------------------ *)
(** ** The logger of [src/config.ts] *)

Module Logger.

Inductive level := Debug | Info | Warn | Error | Fatal.

Definition level_name (l : level) : string :=
  match l with
  | Debug => "debug" | Info => "info" | Warn => "warn" | Error => "error" | Fatal => "fatal"
  end.

(** [LOG_LEVELS[level]] for a level of the literal. *)
Definition rank (l : level) : Z :=
  match l with Debug => 0 | Info => 1 | Warn => 2 | Error => 3 | Fatal => 4 end.

(** A property read on the object literal [LOG_LEVELS]: an own number, or
    an object inherited from [Object.prototype] (one of its methods, or the
    prototype itself for ["__proto__"]). *)
Inductive prop_value := PNum (n : Z) | PObject.

Definition object_prototype_keys : list string :=
  ["constructor"; "__defineGetter__"; "__defineSetter__"; "hasOwnProperty";
   "__lookupGetter__"; "__lookupSetter__"; "isPrototypeOf"; "propertyIsEnumerable";
   "toString"; "valueOf"; "__proto__"; "toLocaleString"].

(** [LOG_LEVELS[key]]; [None] is [undefined]. *)
Definition LOG_LEVELS (key : string) : option prop_value :=
  if String.eqb key "debug" then Some (PNum 0)
  else if String.eqb key "info" then Some (PNum 1)
  else if String.eqb key "warn" then Some (PNum 2)
  else if String.eqb key "error" then Some (PNum 3)
  else if String.eqb key "fatal" then Some (PNum 4)
  else if existsb (String.eqb key) object_prototype_keys then Some PObject
  else None.

(** [LOG_LEVELS[process.env.LOG_LEVEL] ?? LOG_LEVELS.info]; an unset
    variable reads the key ["undefined"]. *)
Definition currentLevel (penv : string -> option string) : prop_value :=
  let key := match penv "LOG_LEVEL" with Some v => v | None => "undefined" end in
  match LOG_LEVELS key with Some p => p | None => PNum 1 end.

(** [LOG_LEVELS[level] < currentLevel]: an object operand converts to
    [NaN], and a comparison with [NaN] is false. *)
Definition below (l : level) (cur : prop_value) : bool :=
  match cur with
  | PNum n => (rank l <? n)%Z
  | PObject => false
  end.

Fixpoint upper (s : string) : string :=
  match s with
  | EmptyString => EmptyString
  | String c r =>
      let n := nat_of_ascii c in
      String (if ((97 <=? n) && (n <=? 122))%nat then ascii_of_nat (n - 32) else c) (upper r)
  end.

(** The argument list [log] hands to [console.error], or [None] when it
    returns early; [ts] is [new Date().toISOString()]. A string message is
    [JStr]. *)
Definition log (penv : string -> option string) (ts : string) (l : level)
    (msgOrObj : jvalue) (msg : option string) : option (list string) :=
  if below l (currentLevel penv) then None
  else
    let head := "[" ++ ts ++ "] [" ++ upper (level_name l) ++ "]" in
    Some match msgOrObj, msg with
         | JStr s, _ => [head ++ " " ++ s]
         | _, Some m => if String.eqb m "" then [head; stringify msgOrObj]
                        else [head ++ " " ++ m; stringify msgOrObj]
         | _, None => [head; stringify msgOrObj]
         end.

End Logger.

(* ------------------------------------------------------------------ *)
(** ** The Composio client ([src/utils/composio-client.ts]) *)

Module Composio.

(** An array index key: ["0"] or digits without a leading zero. *)
Fixpoint digits_all (l : list ascii) (acc : N) : option N :=
  match l with
  | [] => Some acc
  | c :: r => match Config.digit_value c with
              | Some d => digits_all r (d + 10 * acc)%N
              | None => None
              end
  end.

Definition index_key (key : string) : option N :=
  match list_ascii_of_string key with
  | [] => None
  | [c] => digits_all [c] 0
  | c :: r => if Ascii.eqb c "0" then None else digits_all (c :: r) 0
  end.

(** [v[key]] on a value that is neither [null] nor [undefined]: the own
    properties of a parsed object, the elements and [length] of an array
    or of a string; the keys this client reads are not inherited by any of
    these. [None] is [undefined]. *)
Definition prop (v : jvalue) (key : string) : option jvalue :=
  match v with
  | JObj l => lookup key l
  | JArr l =>
      if String.eqb key "length" then Some (JNum (Z.of_nat (List.length l)))
      else match index_key key with
           | Some i => nth_error l (N.to_nat i)
           | None => None
           end
  | JStr s =>
      if String.eqb key "length" then Some (JNum (Z.of_nat (String.length s)))
      else match index_key key with
           | Some i => option_map (fun c => JStr (String c EmptyString)) (String.get (N.to_nat i) s)
           | None => None
           end
  | _ => None
  end.

(** [x?.key] *)
Definition opt_member (x : option jvalue) (key : string) : option jvalue :=
  match x with
  | None | Some JNull => None
  | Some v => prop v key
  end.

(** [x.key]: a [TypeError] on [null] and [undefined]. *)
Definition member (x : option jvalue) (key : string) : outcome (option jvalue) :=
  match x with
  | None => Throw (PlainError ("Cannot read properties of undefined (reading '" ++ key ++ "')"))
  | Some JNull => Throw (PlainError ("Cannot read properties of null (reading '" ++ key ++ "')"))
  | Some v => Ok (prop v key)
  end.

(** [ToString(v)], as [JSON.parse] applies it to its argument. *)
Fixpoint to_js_string (v : jvalue) : string :=
  match v with
  | JNull => "null"
  | JBool b => if b then "true" else "false"
  | JNum z => string_of_list_ascii (num_chars z)
  | JStr s => s
  | JArr l => join "," (map (fun x => match x with JNull => "" | _ => to_js_string x end) l)
  | JObj _ => "[object Object]"
  end.

(** [s.split('\n')] *)
Fixpoint split_nl (l : list ascii) : list string :=
  match l with
  | [] => [""]
  | c :: r =>
      if Ascii.eqb c nl then "" :: split_nl r
      else match split_nl r with
           | h :: t => String c h :: t
           | [] => [String c EmptyString]
           end
  end.

(** What [await axios.post(...)] settles with: the response body (a string
    when it is not JSON), or an [AxiosError] with [message], [code] and
    [response] (status and body). *)
Record axios_error := {
  ae_message : string;
  ae_code : option string;
  ae_response : option (Z * jvalue)
}.

Inductive axios_result :=
| AxiosOk : jvalue -> axios_result
| AxiosErr : axios_error -> axios_result.

(** [ComposioResponse]: [data] and [error] may be [undefined]. *)
Record ComposioResponse := {
  cr_successful : bool;
  cr_data : option jvalue;
  cr_error : option jvalue
}.

(** The response as the object the callers receive. *)
Definition response_object (r : ComposioResponse) : jvalue :=
  JObj ([("successful", JBool (cr_successful r))]
        ++ match cr_data r with Some d => [("data", d)] | None => [] end
        ++ match cr_error r with Some e => [("error", e)] | None => [] end)%list.

Definition config_missing_message : string :=
  "Composio configuration missing. Check COMPOSIO_API_KEY, COMPOSIO_MCP_ENDPOINT, COMPOSIO_USER_ID in .env".

Section Client.

(** [JSON.parse] on a string: [None] is a [SyntaxError]. *)
Variable JSON_parse : string -> option jvalue.

(** The [try] block of the loop for one line: [Some v] when it assigns
    [parsedData = v] and breaks; a thrown error is caught and logged. *)
Definition sse_line (line : string) : option jvalue :=
  if String.prefix "data: " line then
    match JSON_parse (substring 6 (String.length line - 6) line) with
    | None => None
    | Some parsed =>
        match member (Some parsed) "result" with
        | Throw _ => None
        | Ok res =>
            let text := opt_member (opt_member (opt_member res "content") "0") "text" in
            if truthy text then
              match text with
              | Some t => JSON_parse (to_js_string t)
              | None => None
              end
            else None
        end
    end
  else None.

(** [for (const line of lines) { ... }] with its [break]. *)
Fixpoint sse_scan (lines : list string) : option jvalue :=
  match lines with
  | [] => None
  | l :: r => match sse_line l with Some v => Some v | None => sse_scan r end
  end.

(** [{ successful: parsedData.successful !== false, data: parsedData.data || parsedData, error: parsedData.error }] *)
Definition normalize (parsedData : jvalue) : outcome ComposioResponse :=
  s <- member (Some parsedData) "successful" ;;
  d <- member (Some parsedData) "data" ;;
  e <- member (Some parsedData) "error" ;;
  Ok {| cr_successful := match s with Some (JBool false) => false | _ => true end;
        cr_data := if truthy d then d else Some parsedData;
        cr_error := e |}.

Variables apiKey mcpEndpoint userId : string.

(** [`${config.timeout.default}`] *)
Variable timeout_text : string.

(** The [catch] block for an [AxiosError]; the error is the [cause]. *)
Definition handle_axios (ae : axios_error) : outcome ComposioResponse :=
  let cause := Some (PlainError (ae_message ae)) in
  let status := match ae_response ae with Some (st, _) => Some st | None => None end in
  if match status with Some st => (st =? 401)%Z | None => false end then
    Throw (ToolError "composio_client" "Composio authentication failed. Check COMPOSIO_API_KEY." cause false)
  else if match status with Some st => (st =? 429)%Z | None => false end then
    Throw (ToolError "composio_client" "Composio rate limit exceeded. Wait before retrying." cause true)
  else if match ae_code ae with
          | Some c => String.eqb c "ECONNABORTED" || String.eqb c "ETIMEDOUT"
          | None => false
          end then
    Throw (ToolError "composio_client" ("Composio request timeout (" ++ timeout_text ++ "ms)") cause true)
  else match ae_response ae with
       | None => Throw (ToolError "composio_client" ("Network error: " ++ ae_message ae) cause true)
       | Some (_, body) =>
           let e := opt_member (Some body) "error" in
           Ok {| cr_successful := false; cr_data := None;
                 cr_error := if truthy e then e else Some (JStr (ae_message ae)) |}
       end.

(** [callComposioTool(toolName, params)]; [post url toolName params] is the
    settled [axios.post] of the JSON-RPC [tools/call] request. *)
Definition callComposioTool (post : string -> string -> list (string * jvalue) -> axios_result)
    (toolName : string) (params : list (string * jvalue)) : outcome ComposioResponse :=
  if String.eqb apiKey "" || String.eqb mcpEndpoint "" || String.eqb userId "" then
    Throw (ToolError "composio_client" config_missing_message None false)
  else
    match post (mcpEndpoint ++ "?user_id=" ++ userId) toolName params with
    | AxiosErr ae => handle_axios ae
    | AxiosOk data =>
        let parsedData :=
          match data with
          | JStr body => match sse_scan (split_nl (list_ascii_of_string body)) with
                         | Some v => v
                         | None => data
                         end
          | _ => data
          end in
        match normalize parsedData with
        | Ok r => Ok r
        | Throw e => Ok {| cr_successful := false; cr_data := None;
                           cr_error := Some (JStr (message e)) |}
        end
    end.

End Client.

(** [extractComposioItems(response)] *)
Definition extractComposioItems (response : jvalue) : outcome jvalue :=
  d <- member (Some response) "data" ;;
  let a := opt_member (opt_member d "response_data") "items" in
  let items :=
    if truthy a then a
    else let b := opt_member d "items" in
         if truthy b then b
         else let c := prop response "items" in
              if truthy c then c
              else match d with Some (JArr _) => d | _ => Some JNull end in
  match items with
  | Some v => if truthy (Some v) then Ok v else Ok (JArr [])
  | None => Ok (JArr [])
  end.

(** [extractNextPageToken(response)] *)
Definition extractNextPageToken (response : jvalue) : outcome jvalue :=
  d <- member (Some response) "data" ;;
  let a := opt_member (opt_member d "response_data") "nextPageToken" in
  let b := opt_member d "nextPageToken" in
  Ok (match (if truthy a then a else if truthy b then b else Some JNull) with
      | Some v => v
      | None => JNull
      end).

(** [config.composio] read from the environment. *)
Definition composio_from_env (JSON_parse : string -> option jvalue)
    (penv : string -> option string) :=
  callComposioTool JSON_parse
    (Main.env_str penv "COMPOSIO_API_KEY" "")
    (Main.env_str penv "COMPOSIO_MCP_ENDPOINT" "")
    (Main.env_str penv "COMPOSIO_USER_ID" "").

End Composio.

(* ================================================================== *)
(** * Properties *)

(* ------------------------------------------------------------------ *)
(** ** Registry bookkeeping *)

Lemma map_get_set (k k' : string) (v : ToolRegistryEntry) (m : Registry) :
  map_get k (map_set k' v m) = if String.eqb k' k then Some v else map_get k m.
Proof.
  induction m as [| [k0 v0] r IH]; simpl.
  - destruct (String.eqb k' k); reflexivity.
  - destruct (String.eqb k0 k') eqn:E0.
    + apply String.eqb_eq in E0; subst k0. simpl.
      destruct (String.eqb k' k); reflexivity.
    + simpl. rewrite IH.
      destruct (String.eqb k0 k) eqn:E1; [| reflexivity].
      apply String.eqb_eq in E1; subst k0.
      destruct (String.eqb k' k) eqn:E2; [| reflexivity].
      apply String.eqb_eq in E2; subst. rewrite String.eqb_refl in E0. discriminate.
Qed.

Lemma map_set_keys (k : string) (v : ToolRegistryEntry) (m : Registry) :
  map fst (map_set k v m) =
  if existsb (fun kv => String.eqb (fst kv) k) m then map fst m else (map fst m ++ [k])%list.
Proof.
  induction m as [| [k0 v0] r IH]; simpl; [reflexivity |].
  destruct (String.eqb k0 k) eqn:E; simpl; [reflexivity |].
  rewrite IH. destruct (existsb _ r); reflexivity.
Qed.

Section Loader.
Variable modules : string -> option ModuleNs.
Variable zodToJsonSchema : zschema -> string -> outcome jvalue.

Lemma loadToolMetadata_name (server tool : string) (md : ToolMeta) :
  loadToolMetadata modules zodToJsonSchema server tool = Ok md ->
  tm_name md = mcpToolName server tool.
Proof.
  unfold loadToolMetadata, bind.
  destruct (import modules _); [| discriminate].
  destruct (pick_tool _ _); [| discriminate].
  destruct (tv_inputSchema t).
  - destruct (zodToJsonSchema _ _); [| discriminate].
    destruct (flatten_schema _); [| discriminate].
    intros H; inversion H; reflexivity.
  - intros H; inversion H; reflexivity.
Qed.

Lemma register_one_consistent (st : Registry * list log_entry) (p : string * string) :
  keys_consistent (fst st) ->
  keys_consistent (fst (register_one modules zodToJsonSchema st p)).
Proof.
  destruct st as [reg logs], p as [server tool]. simpl. intros Hc.
  destruct (loadToolMetadata modules zodToJsonSchema server tool) eqn:Hl; simpl; [| exact Hc].
  intros k e. rewrite map_get_set.
  destruct (String.eqb (mcpToolName server tool) k) eqn:E.
  - apply String.eqb_eq in E. intros H; inversion H; subst; simpl.
    split; [reflexivity |]. apply (loadToolMetadata_name _ _ _ Hl).
  - apply Hc.
Qed.

Lemma initializeToolRegistry_consistent (servers : list ServerMetadata) :
  keys_consistent (fst (initializeToolRegistry modules zodToJsonSchema servers)).
Proof.
  unfold initializeToolRegistry.
  assert (Hgen : forall l st, keys_consistent (fst st) ->
            keys_consistent (fst (fold_left (register_one modules zodToJsonSchema) l st))).
  { induction l as [| p l IH]; intros st Hst; simpl; [exact Hst |].
    apply IH, register_one_consistent, Hst. }
  apply Hgen. intros k e H; discriminate.
Qed.

End Loader.

(* ------------------------------------------------------------------ *)
(** ** C2: wire names *)

Lemma list_ascii_of_string_append (s1 s2 : string) :
  list_ascii_of_string (s1 ++ s2) = (list_ascii_of_string s1 ++ list_ascii_of_string s2)%list.
Proof. induction s1; simpl; [reflexivity | now rewrite IHs1]. Qed.

Lemma normalizeServerName_chars (g : string) :
  list_ascii_of_string (normalizeServerName g) =
  map (fun c => if Ascii.eqb c "-" then "_"%char else c) (list_ascii_of_string g).
Proof.
  induction g as [| c r IH]; simpl; [reflexivity |].
  destruct (Ascii.eqb c "-"); simpl; now rewrite IH.
Qed.

Lemma camelToSnake_chars (op : string) :
  list_ascii_of_string (camelToSnake op) =
  flat_map (fun c => if is_upper c then ["_"%char; to_lower c] else [c])
           (list_ascii_of_string op).
Proof.
  induction op as [| c r IH]; simpl; [reflexivity |].
  destruct (is_upper c); simpl; now rewrite IH.
Qed.

Lemma mcpToolName_spec (g op : string) : mcpToolName g op = wire_name_spec g op.
Proof.
  unfold mcpToolName, wire_name_spec.
  rewrite <- (string_of_list_ascii_of_string (normalizeServerName g ++ "__" ++ camelToSnake op)).
  f_equal.
  rewrite !list_ascii_of_string_append, normalizeServerName_chars, camelToSnake_chars.
  reflexivity.
Qed.

(** ** C2 *)

(** C2: the wire name of every (group, operation) pair is the group with its
    hyphens rewritten to underscores, ["__"], and the operation with every
    uppercase letter replaced by an underscore and its lowercase form; the
    registry is keyed by exactly that name (which is also the listed
    [name]), and [callTool] resolves an inbound name by that key. For the
    groups of [serverRegistry] the stdio copy computes the same names.
    A catalog of [alpha]/[doThing] and [beta]/[getValue] lists
    [alpha__do_thing] and [beta__get_value] in that order. *)
Theorem wire_name_rule :
  (forall g op, mcpToolName g op = wire_name_spec g op) /\
  (forall modules zod servers,
     keys_consistent (fst (initializeToolRegistry modules zod servers))) /\
  (forall modules reg name args,
     callTool modules reg name args =
     match map_get name reg with
     | None => Throw (PlainError ("Unknown tool: " ++ name))
     | Some entry => match load_execute modules entry name with
                     | Ok ex => finish name (ex (args_or_empty args))
                     | Throw e => Ok (error_response name e)
                     end
     end) /\
  map (fun p => mcpToolName (fst p) (snd p)) (catalog serverRegistry) =
  map (fun p => mcpToolName_stdio (fst p) (snd p)) (catalog serverRegistry) /\
  (forall modules zod md1 md2,
     loadToolMetadata modules zod "alpha" "doThing" = Ok md1 ->
     loadToolMetadata modules zod "beta" "getValue" = Ok md2 ->
     map tm_name (listTools (fst (initializeToolRegistry modules zod servers_ab)))
     = ["alpha__do_thing"; "beta__get_value"]).
Proof.
  split; [exact mcpToolName_spec |].
  split; [intros; apply initializeToolRegistry_consistent |].
  split; [reflexivity |].
  split; [reflexivity |].
  intros modules zod md1 md2 H1 H2.
  pose proof (loadToolMetadata_name _ _ _ _ _ H1) as N1.
  pose proof (loadToolMetadata_name _ _ _ _ _ H2) as N2.
  unfold initializeToolRegistry, servers_ab, catalog.
  cbn [fold_left flat_map map app sm_name sm_tools].
  unfold register_one. rewrite H1, H2. simpl. rewrite N1, N2. reflexivity.
Qed.

(* ------------------------------------------------------------------ *)
(** ** Schema flattening *)

Lemma prefix_app (p k : string) : String.prefix p (p ++ k) = true.
Proof.
  induction p as [| c p IH]; simpl; [destruct k; reflexivity |].
  destruct (ascii_dec c c) as [_ | n]; [exact IH | now contradiction n].
Qed.

Lemma substring_whole (k : string) : substring 0 (String.length k) k = k.
Proof. induction k as [| c k IH]; simpl; [reflexivity | now rewrite IH]. Qed.

Lemma substring_after (p k : string) :
  substring (String.length p) (String.length k) (p ++ k) = k.
Proof. induction p as [| c p IH]; simpl; [apply substring_whole | exact IH]. Qed.

Lemma length_append (p k : string) :
  String.length (p ++ k) = (String.length p + String.length k)%nat.
Proof. induction p as [| c p IH]; simpl; [reflexivity | now rewrite IH]. Qed.

Lemma replace_first_eq (pat rep s : string) :
  replace_first pat rep s =
  if String.prefix pat s then rep ++ substring (String.length pat) (String.length s - String.length pat) s
  else match s with
       | EmptyString => EmptyString
       | String c r => String c (replace_first pat rep r)
       end.
Proof. destruct s; reflexivity. Qed.

Lemma replace_first_ref (key : string) :
  replace_first "#/definitions/" "" ("#/definitions/" ++ key) = key.
Proof.
  rewrite replace_first_eq, prefix_app.
  rewrite length_append.
  replace (String.length "#/definitions/" + String.length key - String.length "#/definitions/")%nat
    with (String.length key) by lia.
  apply substring_after.
Qed.

Lemma flatten_ref_keyed (full : jvalue) (key : string) (d : jvalue) :
  ref_keyed full key d -> flatten_schema full = Ok (delete d "$schema").
Proof.
  intros (defs & Hdefs & Href & Hd & fields & ->).
  unfold flatten_schema. rewrite Hdefs, Href.
  pose proof (replace_first_ref key) as R.
  rewrite R. cbn [get]. rewrite Hd. reflexivity.
Qed.

Lemma forallb_filter {A} (f g : A -> bool) (l : list A) :
  forallb f l = true -> forallb f (filter g l) = true.
Proof.
  induction l as [| x l IH]; simpl; [reflexivity |].
  intros H. apply andb_true_iff in H as [H1 H2].
  destruct (g x); simpl; [rewrite H1 |]; apply IH, H2.
Qed.

Lemma no_ref_delete (d : jvalue) (k : string) :
  no_ref d = true -> no_ref (delete d k) = true.
Proof.
  destruct d; simpl; try tauto. apply forallb_filter.
Qed.

Lemma no_ref_lookup (l : list (string * jvalue)) :
  forallb (fun kv => negb (String.eqb (fst kv) "$ref") && no_ref (snd kv)) l = true ->
  lookup "$ref" l = None.
Proof.
  induction l as [| [k v] l IH]; simpl; [reflexivity |].
  intros H. apply andb_true_iff in H as [H1 H2]. apply andb_true_iff in H1 as [H0 _].
  destruct (String.eqb k "$ref"); [discriminate | apply IH, H2].
Qed.

Lemma flatten_no_ref (full : jvalue) :
  no_ref full = true -> flatten_schema full = Ok full.
Proof.
  intros H. unfold flatten_schema.
  assert (E : get full "$ref" = None).
  { destruct full; try reflexivity. apply no_ref_lookup, H. }
  rewrite E, andb_false_r. reflexivity.
Qed.

Section Loaded.
Variable modules : string -> option ModuleNs.
Variable zodToJsonSchema : zschema -> string -> outcome jvalue.

Lemma load_schema_no_ref (server tool : string) (md : ToolMeta) :
  converter_output_ok modules zodToJsonSchema ->
  loadToolMetadata modules zodToJsonSchema server tool = Ok md ->
  no_ref (tm_inputSchema md) = true.
Proof.
  intros Hconv. unfold loadToolMetadata, bind, import.
  destruct (modules _) as [m |] eqn:Hm; [| discriminate].
  destruct (pick_tool _ _) as [t |] eqn:Ht; [| discriminate].
  destruct (tv_inputSchema t) as [sch |] eqn:Hs.
  - destruct (zodToJsonSchema sch _) as [full |] eqn:Hz; [| discriminate].
    destruct (Hconv _ _ _ _ _ _ Hm Ht Hs Hz) as [(key & d & Hk & Hd) | Hn].
    + rewrite (flatten_ref_keyed _ _ _ Hk). intros H; inversion H; subst; simpl.
      apply no_ref_delete, Hd.
    + rewrite (flatten_no_ref _ Hn). intros H; inversion H; subst; simpl. exact Hn.
  - intros H; inversion H; subst; reflexivity.
Qed.

(** Every entry of the registry holds the metadata its loader returned. *)
Lemma register_one_loaded (st : Registry * list log_entry) (p : string * string) :
  entries_loaded modules zodToJsonSchema (fst st) ->
  entries_loaded modules zodToJsonSchema (fst (register_one modules zodToJsonSchema st p)).
Proof.
  destruct st as [reg logs], p as [server tool]. simpl. intros Hc.
  destruct (loadToolMetadata modules zodToJsonSchema server tool) eqn:Hl; simpl; [| exact Hc].
  intros k e. rewrite map_get_set.
  destruct (String.eqb (mcpToolName server tool) k).
  - intros H; inversion H; subst; simpl. exact Hl.
  - apply Hc.
Qed.

Lemma initializeToolRegistry_loaded (servers : list ServerMetadata) :
  entries_loaded modules zodToJsonSchema
    (fst (initializeToolRegistry modules zodToJsonSchema servers)).
Proof.
  unfold initializeToolRegistry.
  assert (Hgen : forall l st, entries_loaded modules zodToJsonSchema (fst st) ->
            entries_loaded modules zodToJsonSchema
              (fst (fold_left (register_one modules zodToJsonSchema) l st))).
  { induction l as [| p l IH]; intros st Hst; simpl; [exact Hst |].
    apply IH, register_one_loaded, Hst. }
  apply Hgen. intros k e H; discriminate.
Qed.

End Loaded.

Section Loop.
Variable modules : string -> option ModuleNs.
Variable zod : zschema -> string -> outcome jvalue.

Lemma fold_register_logs (l : list (string * string)) (st : Registry * list log_entry) :
  snd (fold_left (register_one modules zod) l st) =
  (snd st ++ map (registration_log modules zod) l)%list.
Proof.
  revert st. induction l as [| [server tool] l IH]; intros [reg logs]; simpl.
  - now rewrite app_nil_r.
  - rewrite IH. unfold registration_log. simpl.
    destruct (loadToolMetadata modules zod server tool); simpl;
      now rewrite <- app_assoc.
Qed.

Lemma fold_register_other (l : list (string * string)) (st : Registry * list log_entry)
    (k : string) :
  ~ In k (map wire_of l) ->
  map_get k (fst (fold_left (register_one modules zod) l st)) = map_get k (fst st).
Proof.
  revert st. induction l as [| [server tool] l IH]; intros [reg logs] Hk; simpl; [reflexivity |].
  simpl in Hk. rewrite IH by tauto. simpl.
  destruct (loadToolMetadata modules zod server tool); simpl; [| reflexivity].
  rewrite map_get_set.
  destruct (String.eqb (mcpToolName server tool) k) eqn:E; [| reflexivity].
  apply String.eqb_eq in E. unfold wire_of in Hk. simpl in Hk. tauto.
Qed.

Lemma fold_register_get (l : list (string * string)) (st : Registry * list log_entry)
    (server tool : string) :
  NoDup (map wire_of l) -> In (server, tool) l ->
  map_get (mcpToolName server tool) (fst (fold_left (register_one modules zod) l st)) =
  match loadToolMetadata modules zod server tool with
  | Ok md => Some {| serverName := server; toolName := tool; metadata := md |}
  | Throw _ => map_get (mcpToolName server tool) (fst st)
  end.
Proof.
  revert st. induction l as [| [s t] l IH]; intros [reg logs] Hnd Hin; [destruct Hin |].
  simpl in Hnd. inversion Hnd as [| x xs Hnot Hnd' Heq]; subst.
  destruct Hin as [Heq | Hin].
  - inversion Heq; subst s t. simpl.
    rewrite fold_register_other by exact Hnot. simpl.
    destruct (loadToolMetadata modules zod server tool); simpl; [| reflexivity].
    rewrite map_get_set, String.eqb_refl. reflexivity.
  - simpl. rewrite (IH _ Hnd' Hin).
    destruct (loadToolMetadata modules zod server tool); [reflexivity |].
    simpl. destruct (loadToolMetadata modules zod s t); simpl; [| reflexivity].
    rewrite map_get_set.
    destruct (String.eqb (mcpToolName s t) (mcpToolName server tool)) eqn:E; [| reflexivity].
    apply String.eqb_eq in E. exfalso. apply Hnot.
    unfold wire_of at 1. simpl. rewrite E.
    apply (in_map wire_of) in Hin. exact Hin.
Qed.

End Loop.

(* ------------------------------------------------------------------ *)
(** ** C6 *)

(** C6: registration never aborts: the loop visits every catalog pair and
    logs, for each, either its registration or its failure with the error
    message; when wire names are distinct, a pair whose loading or schema
    translation throws is absent from the registry while every pair that
    loads is registered under its wire name with its metadata. *)
Theorem registration_failure_isolated :
  forall modules zod servers,
    snd (initializeToolRegistry modules zod servers) =
      map (registration_log modules zod) (catalog servers) /\
    (NoDup (map wire_of (catalog servers)) ->
     forall server tool, In (server, tool) (catalog servers) ->
       map_get (mcpToolName server tool) (fst (initializeToolRegistry modules zod servers)) =
       match loadToolMetadata modules zod server tool with
       | Ok md => Some {| serverName := server; toolName := tool; metadata := md |}
       | Throw _ => None
       end).
Proof.
  intros modules zod servers. split.
  - unfold initializeToolRegistry. rewrite fold_register_logs. reflexivity.
  - intros Hnd server tool Hin. unfold initializeToolRegistry.
    rewrite (fold_register_get _ _ _ _ _ _ Hnd Hin).
    destruct (loadToolMetadata modules zod server tool); reflexivity.
Qed.

(* ------------------------------------------------------------------ *)
(** ** C4 *)

(** C4: when the converter's document is keyed by a [$ref] into
    [definitions], [loadToolMetadata] stores the referenced definition
    itself (without [$schema]); so, for a converter that emits either such
    a document with a [$ref]-free target or a [$ref]-free document, every
    [inputSchema] in the registry (and so in the tools/list answer) has no
    [$ref] anywhere. *)
Theorem registered_input_schema_flat :
  (forall full key d, ref_keyed full key d -> flatten_schema full = Ok (delete d "$schema")) /\
  (forall modules zod servers k e,
     converter_output_ok modules zod ->
     map_get k (fst (initializeToolRegistry modules zod servers)) = Some e ->
     no_ref (tm_inputSchema (metadata e)) = true).
Proof.
  split; [exact flatten_ref_keyed |].
  intros modules zod servers k e Hconv Hk.
  apply (load_schema_no_ref modules zod (serverName e) (toolName e)); [exact Hconv |].
  exact (initializeToolRegistry_loaded modules zod servers k e Hk).
Qed.

(* ------------------------------------------------------------------ *)
(** ** C5 *)

(** C5: a tools/call for a name that is not in the registry rejects the
    handler with [Error('Unknown tool: <name>')], which the SDK answers as a
    JSON-RPC error (code -32603), not as a tool result with [isError]. *)
Theorem unknown_tool_protocol_error :
  forall modules reg name args id,
    map_get name reg = None ->
    callTool modules reg name args = Throw (PlainError ("Unknown tool: " ++ name)) /\
    sdk_respond id (callTool modules reg name args) =
      RpcError id (-32603) ("Unknown tool: " ++ name).
Proof.
  intros modules reg name args id H. unfold callTool. rewrite H. split; reflexivity.
Qed.

(* ------------------------------------------------------------------ *)
(** ** C9 *)

Lemma zod_parse_throws (s : zschema) (x : jvalue) (e : jserror) :
  Zod.parse s x = Throw e -> exists iss, e = ZodError iss.
Proof.
  unfold Zod.parse. destruct (zparse s [] (Some x)) as [[| i iss] [o |]];
    intros H; inversion H; eauto.
Qed.

(** C9: [call] of a [createTool] tool lets only [ToolError]s escape; a
    [ToolError] thrown by [execute] escapes unchanged (with its own
    [retryable]), any other error thrown by [execute] is wrapped as a
    [ToolError] with [retryable = false]; a thrown error is never turned
    into a result. *)
Theorem createTool_error_wrapping :
  (forall name input output execute raw e,
     ToolFactory.call name input output execute raw = Throw e ->
     is_tool_error e = true /\
     (retryable e = true ->
      exists v, Zod.parse input raw = Ok v /\ execute v = Throw e)) /\
  (forall name input output execute raw v e',
     Zod.parse input raw = Ok v -> execute v = Throw e' ->
     ToolFactory.call name input output execute raw =
       Throw (if is_tool_error e' then e' else handle name e') /\
     (is_tool_error e' = false ->
      is_tool_error (handle name e') = true /\ retryable (handle name e') = false)).
Proof.
  split.
  - intros name input output execute raw e. unfold ToolFactory.call, bind.
    destruct (Zod.parse input raw) as [v | ez] eqn:Hin.
    + destruct (execute v) as [r | ex] eqn:Hex.
      * destruct (Zod.parse output r) as [o | eo] eqn:Ho; [discriminate |].
        intros H; inversion H; subst.
        destruct (zod_parse_throws _ _ _ Ho) as [iss ->]. simpl.
        split; [reflexivity | discriminate].
      * intros H; inversion H; subst.
        destruct ex; simpl; try (split; [reflexivity | discriminate]).
        split; [reflexivity |]. intros _. exists v. split; [reflexivity | exact Hex].
    + intros H; inversion H; subst.
      destruct (zod_parse_throws _ _ _ Hin) as [iss ->]. simpl.
      split; [reflexivity | discriminate].
  - intros name input output execute raw v e' Hin Hex.
    unfold ToolFactory.call, bind. rewrite Hin, Hex.
    destruct e'; simpl; split; try reflexivity; try discriminate;
      intros _; split; reflexivity.
Qed.

(* ------------------------------------------------------------------ *)
(** ** C10 *)

(** C10: a tools/call without [arguments] runs [execute] on the empty
    object [{}]. *)
Theorem missing_arguments_become_empty_object :
  forall modules reg name entry ex,
    map_get name reg = Some entry ->
    load_execute modules entry name = Ok ex ->
    callTool modules reg name None = finish name (ex (JObj [])).
Proof.
  intros modules reg name entry ex Hget Hload.
  unfold callTool. rewrite Hget, Hload. reflexivity.
Qed.

(* ------------------------------------------------------------------ *)
(** ** C1 *)

(** C1: the handler runs the raw [execute], not the validating [call]: a
    call of [alpha__do_thing] whose arguments lack the required [x]
    succeeds, while [call] on the same input rejects with a non-retryable
    [ToolError] naming [x]. *)
Theorem call_skips_input_validation :
  callTool demo_modules demo_registry "alpha__do_thing" (Some []) =
    Ok (success_response (JObj [("done", JBool true)])) /\
  ToolFactory.call "alpha__do_thing" doThing_input ZAny
    (fun _ => Ok (JObj [("done", JBool true)])) (JObj []) =
    Throw (ToolError "alpha__do_thing" "Validation failed: x: Required"
             (Some (ZodError [{| zi_code := "invalid_type"; zi_path := ["x"];
                                 zi_message := "Required" |}])) false).
Proof. split; vm_compute; reflexivity. Qed.

(* ------------------------------------------------------------------ *)
(** ** Witnesses *)

Lemma demo_converter_ok : converter_output_ok demo_modules demo_zodToJsonSchema.
Proof.
  intros server tool m tv sch full Hm Ht Hs Hz. left.
  unfold demo_zodToJsonSchema in Hz. inversion Hz; subst full. clear Hz.
  exists (mcpToolName server tool ++ "_input"), (schema_json sch). split.
  - eexists. split; [reflexivity |]. split; [reflexivity |].
    split; [simpl; now rewrite String.eqb_refl |].
    unfold demo_modules in Hm.
    destruct (String.eqb (modulePath server tool) _); [| destruct (String.eqb (modulePath server tool) _)];
      [| | discriminate]; inversion Hm; subst m; unfold pick_tool in Ht; simpl in Ht;
      destruct (String.eqb tool _); inversion Ht; subst tv; inversion Hs; subst sch;
      eexists; reflexivity.
  - unfold demo_modules in Hm.
    destruct (String.eqb (modulePath server tool) _); [| destruct (String.eqb (modulePath server tool) _)];
      [| | discriminate]; inversion Hm; subst m; unfold pick_tool in Ht; simpl in Ht;
      destruct (String.eqb tool _); inversion Ht; subst tv; inversion Hs; subst sch;
      reflexivity.
Qed.

Lemma wire_name_rule_witness :
  map tm_name (listTools demo_registry) = ["alpha__do_thing"; "beta__get_value"].
Proof.
  destruct wire_name_rule as (_ & _ & _ & _ & H).
  eapply H; vm_compute; reflexivity.
Defined.

Lemma registered_input_schema_flat_witness :
  flatten_schema (JObj [("$ref", JStr "#/definitions/t_input");
                        ("definitions", JObj [("t_input", JObj [("type", JStr "object")])]);
                        ("$schema", JStr "draft-07")])
    = Ok (JObj [("type", JStr "object")]) /\
  (exists e, map_get "alpha__do_thing" demo_registry = Some e /\
             no_ref (tm_inputSchema (metadata e)) = true).
Proof.
  split.
  - refine (eq_trans (proj1 registered_input_schema_flat _ "t_input"
                         (JObj [("type", JStr "object")]) _) _); [| reflexivity].
    exists [("t_input", JObj [("type", JStr "object")])].
    split; [reflexivity |]. split; [reflexivity |]. split; [reflexivity |].
    eexists; reflexivity.
  - eexists. split; [vm_compute; reflexivity |].
    apply (proj2 registered_input_schema_flat demo_modules demo_zodToJsonSchema servers_ab
             "alpha__do_thing").
    + apply demo_converter_ok.
    + vm_compute. reflexivity.
Defined.

Lemma unknown_tool_protocol_error_witness :
  map_get "alpha__undo_thing" demo_registry = None /\
  sdk_respond (JNum 7) (callTool demo_modules demo_registry "alpha__undo_thing" (Some [])) =
    RpcError (JNum 7) (-32603) "Unknown tool: alpha__undo_thing".
Proof.
  split; [vm_compute; reflexivity |].
  apply (unknown_tool_protocol_error demo_modules demo_registry "alpha__undo_thing" (Some []) (JNum 7)).
  vm_compute; reflexivity.
Defined.

Lemma registration_failure_isolated_witness :
  NoDup (map wire_of (catalog servers_ab)) /\
  map_get "alpha__do_thing"
    (fst (initializeToolRegistry (fun p => if String.eqb p "./servers/alpha/doThing.js"
                                           then None else demo_modules p)
                                 demo_zodToJsonSchema servers_ab)) = None /\
  map_get "beta__get_value"
    (fst (initializeToolRegistry (fun p => if String.eqb p "./servers/alpha/doThing.js"
                                           then None else demo_modules p)
                                 demo_zodToJsonSchema servers_ab)) <> None.
Proof.
  assert (Hnd : NoDup (map wire_of (catalog servers_ab))).
  { vm_compute. constructor; [intros [H | []]; discriminate | constructor; [intros [] | constructor]]. }
  split; [exact Hnd |]. split.
  - refine (eq_trans (proj2 (registration_failure_isolated _ _ _) Hnd "alpha" "doThing" _) _);
      [vm_compute; tauto | vm_compute; reflexivity].
  - rewrite (proj2 (registration_failure_isolated _ _ _) Hnd "beta" "getValue");
      [vm_compute; discriminate | vm_compute; tauto].
Defined.

Lemma createTool_error_wrapping_witness :
  ToolFactory.call "alpha__do_thing" doThing_input ZAny
    (fun _ => Throw (PlainError "boom")) (JObj [("x", JNum 1)]) =
  Throw (ToolError "alpha__do_thing" "boom" (Some (PlainError "boom")) false) /\
  ToolFactory.call "alpha__do_thing" doThing_input ZAny
    (fun _ => Throw (ToolError "quota" "rate limited" None true)) (JObj [("x", JNum 1)]) =
  Throw (ToolError "quota" "rate limited" None true).
Proof.
  split.
  - apply (proj2 createTool_error_wrapping "alpha__do_thing" doThing_input ZAny
             (fun _ => Throw (PlainError "boom")) (JObj [("x", JNum 1)])
             (JObj [("x", JNum 1)]) (PlainError "boom")); reflexivity.
  - apply (proj2 createTool_error_wrapping "alpha__do_thing" doThing_input ZAny
             (fun _ => Throw (ToolError "quota" "rate limited" None true)) (JObj [("x", JNum 1)])
             (JObj [("x", JNum 1)]) (ToolError "quota" "rate limited" None true)); reflexivity.
Defined.

Lemma missing_arguments_become_empty_object_witness :
  callTool demo_modules demo_registry "beta__get_value" None =
  finish "beta__get_value" (Ok (JObj [("value", JNum 42)])).
Proof.
  refine (eq_trans (missing_arguments_become_empty_object demo_modules demo_registry
            "beta__get_value" _ (fun _ => Ok (JObj [("value", JNum 42)])) _ _) _);
    vm_compute; reflexivity.
Defined.

(* ------------------------------------------------------------------ *)
(** ** C7 *)

Import Http.

(** C7 fails as stated: [express.json()] runs first, so an unauthenticated
    POST /mcp (or GET /health) with a malformed JSON body gets 400, not 401
    (or 200); and a GET /mcp with the right token gets 405 instead of
    reaching the dispatcher. *)
Lemma bearer_auth_counterexample :
  app "secret" 2 {| rq_method := "POST"; rq_path := "/mcp";
                    rq_authorization := None; rq_body := MalformedJson |} = ErrorPage 400 /\
  app "secret" 2 {| rq_method := "GET"; rq_path := "/health";
                    rq_authorization := None; rq_body := MalformedJson |} = ErrorPage 400 /\
  app "secret" 2 {| rq_method := "GET"; rq_path := "/mcp";
                    rq_authorization := Some "Bearer secret"; rq_body := NoJsonBody |} =
    Respond 405 (rpc_error_body (-32601) "SSE not supported in stateless mode").
Proof. repeat split; reflexivity. Qed.

Lemma mcp_not_health (p : string) :
  use_matches "/mcp" p = true -> route_matches "/health" p = false.
Proof.
  unfold use_matches, route_matches.
  destruct (String.eqb (lower p) "/health") eqn:E1.
  { apply String.eqb_eq in E1. rewrite E1. intros H; discriminate H. }
  destruct (String.eqb (lower p) ("/health" ++ "/")) eqn:E2.
  { apply String.eqb_eq in E2. rewrite E2. intros H; discriminate H. }
  reflexivity.
Qed.

Lemma bearer_token (tok : string) :
  substring 7 (String.length ("Bearer " ++ tok) - 7) ("Bearer " ++ tok) = tok.
Proof.
  rewrite length_append.
  replace (String.length "Bearer " + String.length tok - 7)%nat with (String.length tok)
    by (simpl; lia).
  apply (substring_after "Bearer " tok).
Qed.

(** C7 (amended): for a request whose JSON body (if any) parses, a request
    to /mcp or below without an Authorization header, or with one not
    starting with ["Bearer "], gets 401 with a JSON-RPC error body; with
    ["Bearer <token>"] for a token other than the configured key it gets 403
    with a JSON-RPC error body; with the configured key it is passed to the
    /mcp routes, where POST /mcp reaches the dispatcher. GET /health gets
    200 whatever its Authorization header. A malformed JSON body gets 400
    before any route. *)
Theorem bearer_auth_routes :
  forall apiKey n rq,
    (rq_body rq = MalformedJson -> app apiKey n rq = ErrorPage 400) /\
    (rq_body rq <> MalformedJson ->
     (use_matches "/mcp" (rq_path rq) = true ->
        (forall h, rq_authorization rq = Some h -> String.prefix "Bearer " h = false) ->
        app apiKey n rq = Respond 401 (rpc_error_body (-32001)
             "Missing or invalid Authorization header. Expected: Bearer <token>")) /\
     (forall tok, use_matches "/mcp" (rq_path rq) = true ->
        rq_authorization rq = Some ("Bearer " ++ tok) -> tok <> apiKey ->
        app apiKey n rq = Respond 403 (rpc_error_body (-32002) "Invalid API key")) /\
     (use_matches "/mcp" (rq_path rq) = true ->
        rq_authorization rq = Some ("Bearer " ++ apiKey) ->
        app apiKey n rq = mcp_routes rq /\
        (rq_method rq = "POST" -> route_matches "/mcp" (rq_path rq) = true ->
         app apiKey n rq = Dispatch (req_body_value (rq_body rq)))) /\
     (is_get (rq_method rq) = true -> route_matches "/health" (rq_path rq) = true ->
        app apiKey n rq = Respond 200 (JObj [("status", JStr "ok"); ("tools", JNum n)]))).
Proof.
  intros apiKey n [meth path auth bd]. simpl. split.
  { intros ->. reflexivity. }
  intros Hbd. unfold app. cbn [rq_body rq_method rq_path rq_authorization].
  assert (Hb : forall A (x y : A),
             match bd with MalformedJson => x | _ => y end = y)
    by (intros; destruct bd; [reflexivity | reflexivity | contradiction]).
  rewrite Hb. clear Hb.
  split; [| split; [| split]].
  - intros Hu Hauth. rewrite (mcp_not_health _ Hu), andb_false_r, Hu.
    destruct auth as [h |]; simpl; [| reflexivity].
    rewrite (Hauth h eq_refl). reflexivity.
  - intros tok Hu -> Hne. rewrite (mcp_not_health _ Hu), andb_false_r, Hu.
    pose proof (prefix_app "Bearer " tok) as P; pose proof (bearer_token tok) as B.
    cbn [String.append] in P, B. unfold bearerAuth. rewrite P, B.
    destruct (String.eqb tok apiKey) eqn:E; [apply String.eqb_eq in E; contradiction |].
    reflexivity.
  - intros Hu ->. rewrite (mcp_not_health _ Hu), andb_false_r, Hu.
    pose proof (prefix_app "Bearer " apiKey) as P; pose proof (bearer_token apiKey) as B.
    cbn [String.append] in P, B. unfold bearerAuth. rewrite P, B, String.eqb_refl. simpl.
    split; [reflexivity |]. intros -> Hr. unfold mcp_routes. simpl. now rewrite Hr.
  - intros Hg Hh. rewrite Hg, Hh. reflexivity.
Qed.

(* ------------------------------------------------------------------ *)
(** ** C8 *)

(** C8: without [MCP_API_KEY] (unset or empty), [main] logs a fatal
    message and exits with code 1 before [startMcpServer], so nothing is
    ever bound; with a key set it goes on to [startMcpServer]. *)
Theorem missing_api_key_is_fatal :
  forall penv : string -> option string,
    (penv "MCP_API_KEY" = None \/ penv "MCP_API_KEY" = Some "" ->
     Main.main penv =
       [Main.LogInfo "Starting MCP Server with Anthropic guidelines + MCP SDK";
        Main.LogFatal Main.fatal_msg; Main.Exit 1] /\
     ~ In Main.StartMcpServer (Main.main penv)) /\
    (forall k, penv "MCP_API_KEY" = Some k -> k <> "" ->
     exists pre, Main.main penv = (pre ++ [Main.StartMcpServer])%list).
Proof.
  intros penv. split.
  - intros Hk. unfold Main.main, Main.config_server_apiKey, Main.env_str.
    destruct Hk as [-> | ->]; simpl; (split; [reflexivity | intros [H | [H | [H | []]]]; discriminate]).
  - intros k Hk Hne. unfold Main.main, Main.config_server_apiKey, Main.env_str. rewrite Hk.
    destruct (String.eqb k "") eqn:E; [apply String.eqb_eq in E; contradiction |].
    simpl. eexists (_ :: (_ ++ _))%list. rewrite <- app_comm_cons, app_assoc. reflexivity.
Qed.

Lemma bearer_auth_routes_witness :
  app "secret" 2 {| rq_method := "POST"; rq_path := "/mcp";
                    rq_authorization := Some "Bearer wrong"; rq_body := NoJsonBody |} =
    Respond 403 (rpc_error_body (-32002) "Invalid API key").
Proof.
  pose proof (proj2 (bearer_auth_routes "secret" 2
           {| rq_method := "POST"; rq_path := "/mcp";
              rq_authorization := Some "Bearer wrong"; rq_body := NoJsonBody |})
           ltac:(discriminate)) as H.
  apply (proj1 (proj2 H) "wrong"); [reflexivity | reflexivity | discriminate].
Defined.

Lemma missing_api_key_is_fatal_witness :
  ~ In Main.StartMcpServer (Main.main (fun _ => None)).
Proof.
  apply (proj1 (missing_api_key_is_fatal (fun _ => None))). left. reflexivity.
Defined.

(* ------------------------------------------------------------------ *)
(** ** C3 *)

Import JsonParse.


Lemma skip_ws_indent (k : nat) (l : list ascii) : skip_ws (indent k ++ l)%list = skip_ws l.
Proof. unfold indent. induction (2 * k)%nat as [| m IH]; [reflexivity | exact IH]. Qed.

Lemma skip_ws_idem (l : list ascii) : skip_ws (skip_ws l) = skip_ws l.
Proof.
  induction l as [| c l IH]; [reflexivity |]. simpl.
  destruct (is_ws c) eqn:E; [exact IH | simpl; now rewrite E].
Qed.

Lemma parse_value_skip (n : nat) (l : list ascii) :
  parse_value n (skip_ws l) = parse_value n l.
Proof. destruct n as [| f]; [reflexivity |]. simpl. now rewrite skip_ws_idem. Qed.

Lemma parse_value_nl_indent (n k : nat) (l : list ascii) :
  parse_value n (nl :: indent k ++ l)%list = parse_value n l.
Proof.
  rewrite <- (parse_value_skip n (nl :: indent k ++ l)%list), <- (parse_value_skip n l).
  simpl. now rewrite skip_ws_indent.
Qed.

Lemma parse_value_space (n : nat) (l : list ascii) :
  parse_value n (" "%char :: l) = parse_value n l.
Proof.
  rewrite <- (parse_value_skip n (" "%char :: l)), <- (parse_value_skip n l). reflexivity.
Qed.

(** Strings *)

Lemma parse_chars_esc (c : ascii) (tail : list ascii) :
  parse_chars (esc c ++ tail)%list = cons_fst c (parse_chars tail).
Proof. destruct c as [[] [] [] [] [] [] [] []]; reflexivity. Qed.

Lemma parse_chars_quote (cs rest : list ascii) :
  parse_chars (flat_map esc cs ++ dquote :: rest)%list = Some (cs, rest).
Proof.
  induction cs as [| c cs IH]; [reflexivity |].
  simpl. rewrite <- app_assoc, parse_chars_esc, IH. reflexivity.
Qed.

Lemma quote_app (s : string) (rest : list ascii) :
  (quote s ++ rest)%list = dquote :: (flat_map esc (list_ascii_of_string s) ++ dquote :: rest)%list.
Proof. unfold quote. simpl. now rewrite <- app_assoc. Qed.

(** Numbers *)

Lemma read_digits_uint (d : Decimal.uint) (rest : list ascii) :
  num_end rest = true -> read_digits (uint_chars d ++ rest)%list = (d, rest).
Proof.
  intros H. induction d; simpl; try (rewrite IHd; reflexivity).
  destruct rest as [| c r]; [reflexivity |]. simpl in H |- *.
  destruct (digit_ctor c); [discriminate | reflexivity].
Qed.

Lemma number_tail_end (b : bool) (z : Z) (rest : list ascii) :
  num_end rest = true -> number_tail b z rest = Some (JNum (if b then Z.opp z else z), rest).
Proof.
  intros H. destruct rest as [| c r]; [reflexivity |]. simpl in H |- *.
  destruct (digit_ctor c); [discriminate |].
  apply negb_true_iff in H. now rewrite H.
Qed.

Lemma nzhead_not_D0 (d e : Decimal.uint) : Decimal.nzhead d <> Decimal.D0 e.
Proof. induction d; simpl; try discriminate. exact IHd. Qed.

Lemma to_uint_not_D0 (p : positive) (e : Decimal.uint) : Pos.to_uint p <> Decimal.D0 e.
Proof.
  intros E.
  pose proof (DecimalPos.Unsigned.to_of (Pos.to_uint p)) as H.
  rewrite DecimalPos.Unsigned.of_to in H. change (N.to_uint (Npos p)) with (Pos.to_uint p) in H.
  rewrite E in H. unfold Decimal.unorm in H. simpl in H.
  destruct (Decimal.nzhead e) eqn:Z; try discriminate.
  - apply (DecimalPos.Unsigned.to_uint_nonzero p). rewrite E. exact H.
  - rewrite <- H in Z. exact (nzhead_not_D0 _ _ Z).
Qed.

Lemma parse_int_pos (p : positive) (rest : list ascii) :
  num_end rest = true -> parse_int (uint_chars (Pos.to_uint p) ++ rest)%list = Some (Zpos p, rest).
Proof.
  intros H.
  pose proof (DecimalPos.Unsigned.of_to p) as Hp.
  pose proof (to_uint_not_D0 p) as H0.
  pose proof (DecimalPos.Unsigned.to_uint_nonnil p) as Hn.
  change (Zpos p) with (Z.of_N (Npos p)). rewrite <- Hp.
  destruct (Pos.to_uint p) eqn:E;
    [contradiction | exfalso; eapply H0; reflexivity | ..];
    simpl; rewrite (read_digits_uint _ _ H); reflexivity.
Qed.

Lemma parse_number_num (z : Z) (rest : list ascii) :
  num_end rest = true -> parse_number (num_chars z ++ rest)%list = Some (JNum z, rest).
Proof.
  intros H. destruct z as [| p | p].
  - simpl. exact (number_tail_end false 0 rest H).
  - pose proof (parse_int_pos p rest H) as Hi.
    pose proof (DecimalPos.Unsigned.to_uint_nonnil p) as Hn.
    pose proof (to_uint_not_D0 p) as H0.
    simpl num_chars.
    destruct (uint_chars (Pos.to_uint p) ++ rest)%list as [| c r] eqn:E.
    + destruct (Pos.to_uint p); [contradiction | discriminate ..].
    + unfold parse_number.
      assert (Hc : Ascii.eqb c "-"%char = false).
      { destruct (Pos.to_uint p) eqn:E'; [contradiction | ..];
          simpl in E; injection E as <- _; reflexivity. }
      rewrite Hc, Hi. exact (number_tail_end false _ rest H).
  - simpl num_chars. simpl. rewrite (parse_int_pos p rest H).
    exact (number_tail_end true _ rest H).
Qed.

(** Heads of printed values *)

Lemma num_chars_head (z : Z) :
  exists c r, num_chars z = c :: r /\ is_ws c = false /\ Ascii.eqb c "]"%char = false /\
    Ascii.eqb c "}"%char = false /\
    (forall f tail, parse_value (S f) (c :: tail) = parse_number (c :: tail)).
Proof.
  destruct z as [| p | p]; simpl num_chars.
  - eexists _, _. split; [reflexivity |]. repeat split; intros; reflexivity.
  - pose proof (DecimalPos.Unsigned.to_uint_nonnil p) as Hn.
    destruct (Pos.to_uint p); [contradiction | ..];
      (eexists _, _; split; [reflexivity |]; repeat split; intros; reflexivity).
  - eexists _, _. split; [reflexivity |]. repeat split; intros; reflexivity.
Qed.

Lemma ser_head (d : nat) (v : jvalue) :
  exists c r, ser d v = c :: r /\ is_ws c = false /\ Ascii.eqb c "]"%char = false /\
    Ascii.eqb c "}"%char = false.
Proof.
  destruct v as [| [] | z | s | [| x xs] | [| [k x] kvs]];
    try (eexists _, _; split; [reflexivity |]; repeat split; reflexivity).
  destruct (num_chars_head z) as (c & r & E & H1 & H2 & H3 & _).
  exists c, r. simpl. now rewrite E.
Qed.

Lemma after_open_head (cl c : ascii) (k : nat) (r : list ascii) :
  is_ws c = false -> Ascii.eqb c cl = false ->
  after_open cl (nl :: indent k ++ c :: r)%list = None.
Proof.
  intros H1 H2. unfold after_open. simpl. rewrite skip_ws_indent. simpl.
  now rewrite H1, H2.
Qed.

Lemma parse_elems_S (f : nat) (l : list ascii) :
  parse_elems (S f) l =
  match parse_value f l with
  | None => None
  | Some (v, t) =>
      match skip_ws t with
      | [] => None
      | c :: t' =>
          if Ascii.eqb c ","%char then
            match parse_elems f t' with
            | Some (vs, t'') => Some (v :: vs, t'')
            | None => None
            end
          else if Ascii.eqb c "]"%char then Some ([v], t')
          else None
      end
  end.
Proof. reflexivity. Qed.

Lemma skip_ws_cons (c : ascii) (l : list ascii) :
  is_ws c = false -> skip_ws (c :: l) = c :: l.
Proof. intros H. simpl. now rewrite H. Qed.

Lemma skip_ws_nl_indent (k : nat) (l : list ascii) :
  skip_ws (nl :: indent k ++ l)%list = skip_ws l.
Proof. exact (skip_ws_indent k l). Qed.

Lemma parse_elems_ser (d : nat) (xs : list jvalue) :
  Forall roundtrips xs -> forall x n rest, roundtrips x ->
  forallb json_shaped (x :: xs) = true ->
  (fold_right (fun y acc => S (jsize y + acc)) 0%nat (x :: xs) <= n)%nat ->
  parse_elems n (nl :: indent (S d) ++ ser (S d) x
                 ++ flat_map (fun y => ","%char :: nl :: indent (S d) ++ ser (S d) y) xs
                 ++ nl :: indent d ++ "]"%char :: rest)%list = Some (x :: xs, rest).
Proof.
  induction xs as [| y ys IH]; intros HF x n rest Hx Hw Hn;
    (destruct n as [| f]; [simpl in Hn; lia |]);
    rewrite parse_elems_S, parse_value_nl_indent.
  - simpl in Hw, Hn. rewrite andb_true_r in Hw.
    cbn [flat_map app]. erewrite Hx; [| exact Hw | lia | reflexivity].
    cbv beta iota. rewrite app_nil_l, skip_ws_nl_indent. reflexivity.
  - cbn [flat_map]. rewrite <- !app_assoc. cbn [app].
    rewrite <- !app_comm_cons, <- !app_assoc.
    simpl in Hw. apply andb_prop in Hw as [Hwx Hw].
    erewrite Hx; [| exact Hwx | simpl in Hn; lia | reflexivity]. cbv beta iota.
    rewrite (skip_ws_cons ","%char _ eq_refl).
    change ((","%char =? ","%char)%char) with true. cbv beta iota.
    inversion HF as [| ? ? Hy Hys]; subst.
    rewrite (IH Hys y f rest Hy Hw); [reflexivity |].
    simpl in Hn |- *. lia.
Qed.

Lemma parse_members_S (f : nat) (l : list ascii) :
  parse_members (S f) l =
  match skip_ws l with
  | [] => None
  | c :: r =>
      if Ascii.eqb c dquote then
        match parse_chars r with
        | None => None
        | Some (ks, t) =>
            match skip_ws t with
            | [] => None
            | c1 :: t1 =>
                if Ascii.eqb c1 ":"%char then
                  match parse_value f t1 with
                  | None => None
                  | Some (v, t2) =>
                      match skip_ws t2 with
                      | [] => None
                      | c2 :: t3 =>
                          if Ascii.eqb c2 ","%char then
                            match parse_members f t3 with
                            | Some (m, t4) => Some ((string_of_list_ascii ks, v) :: m, t4)
                            | None => None
                            end
                          else if Ascii.eqb c2 "}"%char then
                            Some ([(string_of_list_ascii ks, v)], t3)
                          else None
                      end
                  end
                else None
            end
        end
      else None
  end.
Proof. reflexivity. Qed.

Lemma parse_members_ser (d : nat) (kvs : list (string * jvalue)) :
  Forall (fun kv => roundtrips (snd kv)) kvs -> forall k x n rest, roundtrips x ->
  forallb (fun kv => let '(_, y) := kv in json_shaped y) ((k, x) :: kvs) = true ->
  (fold_right (fun kv acc => let '(_, y) := kv in S (jsize y + acc)) 0%nat ((k, x) :: kvs)
     <= n)%nat ->
  parse_members n
    (nl :: indent (S d) ++ quote k ++ [":"%char; " "%char] ++ ser (S d) x
     ++ flat_map (fun kv => let '(k', y) := kv in
                  ","%char :: nl :: indent (S d) ++ quote k' ++ [":"%char; " "%char]
                  ++ ser (S d) y) kvs
     ++ nl :: indent d ++ "}"%char :: rest)%list = Some ((k, x) :: kvs, rest).
Proof.
  induction kvs as [| [k2 y] kvs IH]; intros HF k x n rest Hx Hw Hn;
    (destruct n as [| f]; [simpl in Hn; lia |]);
    rewrite parse_members_S, skip_ws_nl_indent, quote_app, (skip_ws_cons dquote _ eq_refl);
    change ((dquote =? dquote)%char) with true; cbv beta iota;
    rewrite parse_chars_quote; cbv beta iota;
    rewrite <- !app_comm_cons, app_nil_l, (skip_ws_cons ":"%char _ eq_refl);
    change ((":"%char =? ":"%char)%char) with true; cbv beta iota;
    rewrite parse_value_space, string_of_list_ascii_of_string.
  - simpl in Hw, Hn. rewrite andb_true_r in Hw.
    cbn [flat_map]. rewrite app_nil_l. erewrite Hx; [| exact Hw | lia | reflexivity].
    cbv beta iota. rewrite skip_ws_nl_indent. reflexivity.
  - cbn [flat_map]. rewrite <- !app_assoc. cbn [app].
    rewrite <- !app_comm_cons, <- !app_assoc.
    simpl in Hw. apply andb_prop in Hw as [Hwx Hw].
    erewrite Hx; [| exact Hwx | simpl in Hn; lia | reflexivity]. cbv beta iota.
    rewrite (skip_ws_cons ","%char _ eq_refl).
    change ((","%char =? ","%char)%char) with true. cbv beta iota.
    inversion HF as [| ? ? Hy Hys]; subst.
    assert (Hf : (fold_right (fun kv acc => let '(_, y) := kv in S (jsize y + acc)) 0%nat
                    ((k2, y) :: kvs) <= f)%nat) by (simpl in Hn |- *; lia).
    pose proof (IH Hys k2 y f rest Hy Hw Hf) as HI.
    rewrite <- !app_comm_cons, ?app_nil_l in HI |- *. rewrite HI. reflexivity.
Qed.

(** Objects with distinct keys are rebuilt as they are *)

Lemma nodup_keys_NoDup (ks : list string) : nodup_keys ks = true -> NoDup ks.
Proof.
  induction ks as [| k ks IH]; simpl; intros H; [constructor |].
  apply andb_prop in H as [H1 H2]. constructor; [| exact (IH H2)].
  intros Hin. apply negb_true_iff in H1.
  assert (Hx : existsb (String.eqb k) ks = true)
    by (apply existsb_exists; exists k; split; [exact Hin | apply String.eqb_refl]).
  congruence.
Qed.

Lemma assoc_set_fresh (k : string) (v : jvalue) (acc : list (string * jvalue)) :
  ~ In k (map fst acc) -> assoc_set k v acc = (acc ++ [(k, v)])%list.
Proof.
  induction acc as [| [k' v'] acc IH]; simpl; intros H; [reflexivity |].
  destruct (String.eqb k' k) eqn:E.
  - apply String.eqb_eq in E. subst. exfalso. apply H. now left.
  - rewrite IH; [reflexivity |]. intros Hin. apply H. now right.
Qed.

Lemma fold_assoc_fresh (m acc : list (string * jvalue)) :
  NoDup (map fst (acc ++ m)) ->
  fold_left (fun acc kv => assoc_set (fst kv) (snd kv) acc) m acc = (acc ++ m)%list.
Proof.
  revert acc. induction m as [| [k v] m IH]; intros acc H; simpl.
  - now rewrite app_nil_r.
  - rewrite map_app in H. simpl in H.
    rewrite assoc_set_fresh.
    + rewrite IH; [now rewrite <- app_assoc |].
      rewrite <- app_assoc. rewrite map_app. exact H.
    + intros Hin. apply (NoDup_remove_2 _ _ _ H). apply in_or_app. now left.
Qed.

Lemma obj_of_members_nodup (m : list (string * jvalue)) :
  nodup_keys (map fst m) = true -> obj_of_members m = m.
Proof.
  intros H. unfold obj_of_members. rewrite fold_assoc_fresh; [reflexivity |].
  exact (nodup_keys_NoDup _ H).
Qed.

(** The roundtrip *)

Lemma ser_arr_cons (d : nat) (x : jvalue) (xs : list jvalue) :
  ser d (JArr (x :: xs)) =
  ("["%char :: nl :: indent (S d) ++ ser (S d) x
   ++ flat_map (fun y => ","%char :: nl :: indent (S d) ++ ser (S d) y) xs
   ++ nl :: indent d ++ ["]"%char])%list.
Proof. reflexivity. Qed.

Lemma ser_obj_cons (d : nat) (k : string) (x : jvalue) (kvs : list (string * jvalue)) :
  ser d (JObj ((k, x) :: kvs)) =
  ("{"%char :: nl :: indent (S d) ++ quote k ++ [":"%char; " "%char] ++ ser (S d) x
   ++ flat_map (fun kv => let '(k', y) := kv in
                ","%char :: nl :: indent (S d) ++ quote k' ++ [":"%char; " "%char]
                ++ ser (S d) y) kvs
   ++ nl :: indent d ++ ["}"%char])%list.
Proof. reflexivity. Qed.

Lemma parse_value_open_arr (f : nat) (r : list ascii) :
  parse_value (S f) ("["%char :: r) =
  match after_open "]"%char r with
  | Some t => Some (JArr [], t)
  | None => match parse_elems f r with Some (vs, t) => Some (JArr vs, t) | None => None end
  end.
Proof. reflexivity. Qed.

Lemma parse_value_open_obj (f : nat) (r : list ascii) :
  parse_value (S f) ("{"%char :: r) =
  match after_open "}"%char r with
  | Some t => Some (JObj [], t)
  | None =>
      match parse_members f r with
      | Some (m, t) => Some (JObj (obj_of_members m), t)
      | None => None
      end
  end.
Proof. reflexivity. Qed.

Lemma after_open_ser (k d : nat) (v : jvalue) (l : list ascii) :
  after_open "]"%char (nl :: indent k ++ ser d v ++ l)%list = None.
Proof.
  destruct (ser_head d v) as (c & r & E & H1 & H2 & _).
  rewrite E, <- app_comm_cons. exact (after_open_head _ _ _ _ H1 H2).
Qed.

Lemma after_open_quote (k : nat) (s : string) (l : list ascii) :
  after_open "}"%char (nl :: indent k ++ quote s ++ l)%list = None.
Proof. rewrite quote_app. exact (after_open_head "}"%char dquote k _ eq_refl eq_refl). Qed.

Ltac norm_app := repeat (rewrite <- app_assoc || rewrite <- app_comm_cons); rewrite ?app_nil_l.
Ltac norm_app_in H :=
  repeat (rewrite <- app_assoc in H || rewrite <- app_comm_cons in H); rewrite ?app_nil_l in H.

Lemma ser_roundtrips (v : jvalue) : roundtrips v.
Proof.
  induction v as [| b | z | s | l IH | l IH] using jvalue_ind';
    unfold roundtrips; intros d n rest Hw Hn He;
    (destruct n as [| f]; [simpl in Hn; lia |]).
  - reflexivity.
  - destruct b; reflexivity.
  - destruct (num_chars_head z) as (c & r & E & _ & _ & _ & Hp).
    change (ser d (JNum z)) with (num_chars z).
    rewrite <- (parse_number_num z rest He), E, <- app_comm_cons. apply Hp.
  - change (ser d (JStr s)) with (quote s). rewrite quote_app. simpl.
    rewrite parse_chars_quote, string_of_list_ascii_of_string. reflexivity.
  - destruct l as [| x xs]; [reflexivity |].
    inversion IH as [| ? ? Hx Hxs]; subst.
    rewrite ser_arr_cons. norm_app.
    rewrite parse_value_open_arr, after_open_ser.
    rewrite (parse_elems_ser d xs Hxs x f rest Hx Hw); [reflexivity |].
    simpl in Hn |- *. lia.
  - destruct l as [| [k x] kvs]; [reflexivity |].
    inversion IH as [| ? ? Hx Hkvs]; subst.
    simpl in Hw. apply andb_prop in Hw as [Hk Hw].
    rewrite ser_obj_cons. norm_app.
    rewrite parse_value_open_obj, after_open_quote.
    pose proof (parse_members_ser d kvs Hkvs k x f rest Hx) as HM.
    norm_app_in HM. norm_app.
    rewrite HM; [| simpl; exact Hw | simpl in Hn |- *; lia].
    rewrite obj_of_members_nodup by exact Hk. reflexivity.
Qed.

(** The fuel [json_parse] gives is enough *)

Lemma length_indent_ser_pos (d : nat) (v : jvalue) : (1 <= List.length (ser d v))%nat.
Proof. destruct (ser_head d v) as (c & r & E & _). rewrite E. simpl. lia. Qed.

Lemma length_cons (a : ascii) (l : list ascii) : List.length (a :: l) = S (List.length l).
Proof. reflexivity. Qed.

Lemma jsize_le_length (v : jvalue) : forall d, (jsize v <= List.length (ser d v))%nat.
Proof.
  induction v as [| b | z | s | l IH | l IH] using jvalue_ind'; intros d;
    try exact (length_indent_ser_pos d _).
  - destruct l as [| x xs]; [simpl; lia |].
    inversion IH as [| ? ? Hx Hxs]; subst.
    assert (Hf : (fold_right (fun y acc => S (jsize y + acc)) 0%nat xs <=
                  List.length (flat_map (fun y => ","%char :: nl :: indent (S d) ++ ser (S d) y)
                                        xs))%nat).
    { clear Hx IH. induction xs as [| y ys IHys]; [simpl; lia |].
      inversion Hxs as [| ? ? Hy Hys]; subst.
      cbn [flat_map fold_right]. rewrite length_app, !length_cons, length_app.
      specialize (Hy (S d)). specialize (IHys Hys). lia. }
    change (jsize (JArr (x :: xs)))
      with (S (S (jsize x + fold_right (fun y acc => S (jsize y + acc)) 0%nat xs))).
    rewrite ser_arr_cons, !length_cons, !length_app, length_cons.
    specialize (Hx (S d)). lia.
  - destruct l as [| [k x] kvs]; [simpl; lia |].
    inversion IH as [| ? ? Hx Hkvs]; subst.
    assert (Hf : (fold_right (fun kv acc => let '(_, y) := kv in S (jsize y + acc)) 0%nat kvs <=
                  List.length (flat_map (fun kv => let '(k', y) := kv in
                                  ","%char :: nl :: indent (S d) ++ quote k'
                                  ++ [":"%char; " "%char] ++ ser (S d) y) kvs))%nat).
    { clear Hx IH. induction kvs as [| [k2 y] kvs' IHk]; [simpl; lia |].
      inversion Hkvs as [| ? ? Hy Hks]; subst.
      cbn [flat_map fold_right]. rewrite length_app, !length_cons, !length_app.
      specialize (Hy (S d)). specialize (IHk Hks). simpl in Hy. lia. }
    change (jsize (JObj ((k, x) :: kvs)))
      with (S (S (jsize x + fold_right (fun kv acc => let '(_, y) := kv in S (jsize y + acc))
                                       0%nat kvs))).
    rewrite ser_obj_cons, !length_cons, !length_app, length_cons.
    specialize (Hx (S d)). simpl in Hx. lia.
Qed.

Lemma json_parse_stringify (v : jvalue) :
  json_shaped v = true -> json_parse (stringify v) = Some v.
Proof.
  intros Hw. unfold json_parse, stringify. rewrite list_ascii_of_string_of_list_ascii.
  pose proof (ser_roundtrips v 0 (S (List.length (ser 0 v))) [] Hw
                ltac:(pose proof (jsize_le_length v 0); lia) eq_refl) as H.
  rewrite app_nil_r in H. rewrite H. reflexivity.
Qed.

(** A successful call answers with the [content] text only: the response
    has no [structuredContent] copy of the result. *)
Lemma success_response_has_no_structured_copy :
  callTool demo_modules demo_registry "beta__get_value" (Some []) =
    Ok (success_response (JObj [("value", JNum 42)])) /\
  has_structured_copy (success_response (JObj [("value", JNum 42)])) = false.
Proof. split; vm_compute; reflexivity. Qed.

(** C3: a call of a registered tool that succeeds (its response has no
    [isError] flag) answers exactly
    [{content: [{type: 'text', text: JSON.stringify(result, null, 2)}]}],
    where [result] is what the tool's [execute] resolved to, and for a
    JSON-shaped result the text parses back to it ([JSON.parse(text)] gives
    [result] again); but the response never carries the structured copy
    ([structuredContent]) of the result. *)
Theorem call_success_response :
  forall (modules : string -> option ModuleNs) (reg : Registry) (name : string)
         (args : option (list (string * jvalue))) (resp : jvalue),
    callTool modules reg name args = Ok resp -> get resp "isError" = None ->
    exists entry ex result,
      map_get name reg = Some entry /\ load_execute modules entry name = Ok ex /\
      ex (args_or_empty args) = Ok result /\
      resp = success_response result /\ has_structured_copy resp = false /\
      (json_shaped result = true -> json_parse (stringify result) = Some result).
Proof.
  intros modules reg name args resp Hc Hi. unfold callTool in Hc.
  destruct (map_get name reg) as [entry |] eqn:Hm; [| discriminate Hc].
  destruct (load_execute modules entry name) as [ex | e] eqn:Hl;
    [| injection Hc as <-; discriminate Hi].
  unfold finish in Hc.
  destruct (ex (args_or_empty args)) as [result | e] eqn:He; simpl in Hc;
    [| injection Hc as <-; discriminate Hi].
  destruct (object_keys result) as [ks | e] eqn:Ho; simpl in Hc;
    injection Hc as <-; [| discriminate Hi].
  exists entry, ex, result. repeat split; try reflexivity; try assumption.
  exact (json_parse_stringify result).
Qed.

Lemma call_success_response_witness :
  exists result,
    callTool demo_modules demo_registry "beta__get_value" (Some []) =
      Ok (success_response result) /\
    (json_shaped result = true -> json_parse (stringify result) = Some result).
Proof.
  destruct (call_success_response demo_modules demo_registry "beta__get_value" (Some [])
              (success_response (JObj [("value", JNum 42)]))
              ltac:(vm_compute; reflexivity) ltac:(vm_compute; reflexivity))
    as (entry & ex & result & _ & _ & _ & E & _ & P).
  exists result. split; [rewrite <- E; vm_compute; reflexivity | exact P].
Defined.

(* ------------------------------------------------------------------ *)
(** ** [env] with number and boolean defaults *)

Section EnvNum.
Import Config.
Local Open Scope list_scope.

Lemma digits_prefix_stop (rest : list ascii) (acc : N) (cnt : nat) :
  first_nondigit rest -> digits_prefix rest acc cnt = (cnt, acc).
Proof. destruct rest as [| c r]; simpl; [reflexivity |]. intros ->. reflexivity. Qed.

Lemma digits_prefix_acc (d : Decimal.uint) (rest : list ascii) (a : positive) (cnt : nat) :
  first_nondigit rest ->
  digits_prefix (uint_chars d ++ rest) (Npos a) cnt
  = (cnt + Decimal.nb_digits d, Npos (Pos.of_uint_acc d a))%nat.
Proof.
  revert a cnt. induction d; intros a cnt H; simpl;
    try (rewrite IHd by exact H; f_equal; lia).
  rewrite digits_prefix_stop by exact H. f_equal; lia.
Qed.

Lemma digits_prefix_uint (d : Decimal.uint) (rest : list ascii) (cnt : nat) :
  first_nondigit rest ->
  digits_prefix (uint_chars d ++ rest) 0 cnt
  = (cnt + Decimal.nb_digits d, Pos.of_uint d)%nat.
Proof.
  revert cnt. induction d; intros cnt H; simpl;
    try (rewrite digits_prefix_acc by exact H; f_equal; lia).
  - rewrite digits_prefix_stop by exact H. f_equal; lia.
  - rewrite IHd by exact H. f_equal; lia.
Qed.

Lemma trim_start_spaces (ws l : list ascii) :
  Forall (fun c => is_js_space c = true) ws -> trim_start (ws ++ l) = trim_start l.
Proof. induction 1 as [| c r Hc _ IH]; simpl; [reflexivity |]. now rewrite Hc. Qed.

Lemma uint_sign_step (d : Decimal.uint) (rest : list ascii) : d <> Decimal.Nil ->
  match uint_chars d ++ rest with
  | c :: r => if Ascii.eqb c "-" then (true, r)
              else if Ascii.eqb c "+" then (false, r) else (false, uint_chars d ++ rest)
  | [] => (false, uint_chars d ++ rest)
  end = (false, uint_chars d ++ rest).
Proof. destruct d; intros H; [congruence | reflexivity ..]. Qed.

Lemma uint_trim (d : Decimal.uint) (rest : list ascii) : d <> Decimal.Nil ->
  trim_start (uint_chars d ++ rest) = (uint_chars d ++ rest)%list.
Proof. destruct d; intros H; [congruence | reflexivity ..]. Qed.

Lemma round_double_small (m : N) : (m < 2 ^ 53)%N -> round_double m = Some m.
Proof.
  intros H. unfold round_double.
  replace ((m <? 2 ^ 53)%N) with true by (symmetry; apply N.ltb_lt, H).
  replace ((m <? 2 ^ 1024)%N) with true; [reflexivity |].
  symmetry; apply N.ltb_lt. apply (N.lt_trans _ _ _ H). apply N.pow_lt_mono_r; lia.
Qed.

Lemma parseInt10_num (ws rest : list ascii) (n : Z) :
  Forall (fun c => is_js_space c = true) ws -> first_nondigit rest -> (Z.abs n < 2 ^ 53)%Z ->
  parseInt10 (string_of_list_ascii (ws ++ num_chars n ++ rest)) = Some (NInt n).
Proof.
  intros Hws Hr Hn. unfold parseInt10.
  rewrite list_ascii_of_string_of_list_ascii, trim_start_spaces by exact Hws.
  destruct n as [| p | p]; simpl num_chars.
  - simpl. rewrite digits_prefix_stop by exact Hr. reflexivity.
  - pose proof (DecimalPos.Unsigned.to_uint_nonnil p) as Hnil.
    rewrite (uint_trim _ _ Hnil), (uint_sign_step _ _ Hnil), digits_prefix_uint by exact Hr.
    rewrite DecimalPos.Unsigned.of_to. simpl Nat.add.
    destruct (Decimal.nb_digits (Pos.to_uint p)) eqn:Hd.
    + destruct (Pos.to_uint p); [contradiction | discriminate ..].
    + rewrite round_double_small by lia. reflexivity.
  - pose proof (DecimalPos.Unsigned.to_uint_nonnil p) as Hnil.
    simpl trim_start. cbv iota beta. change (Ascii.eqb "-" "-") with true. cbv iota beta.
    rewrite digits_prefix_uint by exact Hr.
    rewrite DecimalPos.Unsigned.of_to. simpl Nat.add.
    destruct (Decimal.nb_digits (Pos.to_uint p)) eqn:Hd.
    + destruct (Pos.to_uint p); [contradiction | discriminate ..].
    + rewrite round_double_small by lia. reflexivity.
Qed.

Lemma digits_prefix_none (l : list ascii) (acc : N) (cnt : nat) :
  (forall c, In c l -> digit_value c = None) -> fst (digits_prefix l acc cnt) = cnt.
Proof.
  destruct l as [| c r]; simpl; [reflexivity |]. intros H. now rewrite (H c (or_introl eq_refl)).
Qed.

Lemma trim_start_incl (l : list ascii) : incl (trim_start l) l.
Proof.
  induction l as [| c r IH]; simpl; [apply incl_refl |].
  destruct (is_js_space c); [apply incl_tl, IH | apply incl_refl].
Qed.

Lemma parseInt10_no_digits (v : string) :
  (forall c, In c (list_ascii_of_string v) -> digit_value c = None) -> parseInt10 v = None.
Proof.
  intros H. unfold parseInt10.
  pose proof (trim_start_incl (list_ascii_of_string v)) as Hi.
  destruct (trim_start (list_ascii_of_string v)) as [| c r] eqn:Et; [reflexivity |].
  assert (Hs : forall neg s2,
    (if Ascii.eqb c "-" then (true, r) else if Ascii.eqb c "+" then (false, r) else (false, c :: r))
    = (neg, s2) -> incl s2 (c :: r)).
  { intros neg s2. destruct (Ascii.eqb c "-"), (Ascii.eqb c "+"); intros E; inversion E;
      subst; first [apply incl_refl | apply incl_tl, incl_refl]. }
  destruct (if Ascii.eqb c "-" then (true, r) else if Ascii.eqb c "+" then (false, r) else (false, c :: r))
    as [neg s2] eqn:Es.
  specialize (Hs _ _ eq_refl).
  pose proof (digits_prefix_none s2 0 0) as Hd.
  destruct (digits_prefix s2 0 0) as [cnt m]. simpl in Hd.
  rewrite Hd; [reflexivity |]. intros x Hx. apply H, Hi, Hs, Hx.
Qed.

End EnvNum.

Section EnvBool.
Import Config.

Lemma js_lower_char_true_letters (c x : ascii) : In x (list_ascii_of_string "true") ->
  Ascii.eqb (js_lower_char c) x = Ascii.eqb (to_lower c) x.
Proof.
  simpl. intros [<- | [<- | [<- | [<- | []]]]];
    destruct c as [[] [] [] [] [] [] [] []]; reflexivity.
Qed.

Lemma js_toLowerCase_letters (v : string) (t : list ascii) :
  incl t (list_ascii_of_string "true") ->
  (list_ascii_of_string (js_toLowerCase v) = t <-> map to_lower (list_ascii_of_string v) = t).
Proof.
  revert t. induction v as [| c r IH]; intros t Ht; simpl; [tauto |].
  destruct t as [| x t']; [split; discriminate |].
  pose proof (js_lower_char_true_letters c x (Ht x (or_introl eq_refl))) as Hc.
  assert (Ht' : incl t' (list_ascii_of_string "true")) by (intros y Hy; apply Ht; right; exact Hy).
  specialize (IH t' Ht').
  split; intros E; injection E as E1 E2; f_equal; try (apply IH; exact E2).
  - apply Ascii.eqb_eq. rewrite <- Hc. apply Ascii.eqb_eq, E1.
  - apply Ascii.eqb_eq. rewrite Hc. apply Ascii.eqb_eq, E1.
Qed.

End EnvBool.

(* ------------------------------------------------------------------ *)
(** ** Logger level filter *)

Section LogLevels.
Import Logger.

Lemma currentLevel_cases (penv : string -> option string) :
  currentLevel penv = PObject \/
  exists n, currentLevel penv = PNum n /\ (0 <= n <= 4)%Z.
Proof.
  unfold currentLevel, LOG_LEVELS.
  destruct (String.eqb _ "debug"); [right; eexists; split; [reflexivity | lia] |].
  destruct (String.eqb _ "info"); [right; eexists; split; [reflexivity | lia] |].
  destruct (String.eqb _ "warn"); [right; eexists; split; [reflexivity | lia] |].
  destruct (String.eqb _ "error"); [right; eexists; split; [reflexivity | lia] |].
  destruct (String.eqb _ "fatal"); [right; eexists; split; [reflexivity | lia] |].
  destruct (existsb _ _); [left; reflexivity | right; eexists; split; [reflexivity | lia]].
Qed.

Lemma LOG_LEVELS_name (l : level) : LOG_LEVELS (level_name l) = Some (PNum (rank l)).
Proof. destruct l; reflexivity. Qed.

Lemma log_emits (penv : string -> option string) (ts : string) (l : level)
    (msgOrObj : jvalue) (msg : option string) :
  log penv ts l msgOrObj msg <> None <-> below l (currentLevel penv) = false.
Proof.
  unfold log. destruct (below l (currentLevel penv)); split; congruence.
Qed.

Lemma LOG_LEVELS_unknown (v : string) :
  ~ In v (map level_name [Debug; Info; Warn; Error; Fatal]) -> ~ In v object_prototype_keys ->
  LOG_LEVELS v = None.
Proof.
  intros H1 H2. unfold LOG_LEVELS.
  repeat match goal with
  | |- context [String.eqb v ?k] =>
      let E := fresh in destruct (String.eqb v k) eqn:E;
      [apply String.eqb_eq in E; subst v; exfalso; apply H1; simpl; tauto |]
  end.
  destruct (existsb (String.eqb v) object_prototype_keys) eqn:E; [| reflexivity].
  apply existsb_exists in E. destruct E as [k [Hk E]]. apply String.eqb_eq in E. subst k.
  contradiction.
Qed.

Lemma LOG_LEVELS_proto (v : string) : In v object_prototype_keys -> LOG_LEVELS v = Some PObject.
Proof.
  simpl. intros H.
  repeat (destruct H as [<- | H]; [reflexivity |]). destruct H.
Qed.

End LogLevels.

(* ------------------------------------------------------------------ *)
(** ** The Composio client *)

Section ComposioFacts.
Import Composio.

Variable JSON_parse : string -> option jvalue.

Lemma prop_str_named (s : string) :
  prop (JStr s) "successful" = None /\ prop (JStr s) "data" = None /\
  prop (JStr s) "error" = None.
Proof. repeat split; reflexivity. Qed.

Lemma normalize_obj (l : list (string * jvalue)) :
  normalize (JObj l) =
  Ok {| cr_successful := match lookup "successful" l with Some (JBool false) => false | _ => true end;
        cr_data := if truthy (lookup "data" l) then lookup "data" l else Some (JObj l);
        cr_error := lookup "error" l |}.
Proof. reflexivity. Qed.

Lemma normalize_str (s : string) :
  normalize (JStr s) = Ok {| cr_successful := true; cr_data := Some (JStr s); cr_error := None |}.
Proof. reflexivity. Qed.

Lemma sse_scan_no_data (lines : list string) :
  Forall (fun l => String.prefix "data: " l = false) lines -> sse_scan JSON_parse lines = None.
Proof.
  induction 1 as [| l r Hl _ IH]; simpl; [reflexivity |].
  unfold sse_line at 1. rewrite Hl. exact IH.
Qed.

Lemma config_set (apiKey mcpEndpoint userId : string) :
  apiKey <> "" -> mcpEndpoint <> "" -> userId <> "" ->
  (String.eqb apiKey "" || String.eqb mcpEndpoint "" || String.eqb userId "")%bool = false.
Proof.
  intros H1 H2 H3. apply String.eqb_neq in H1, H2, H3. now rewrite H1, H2, H3.
Qed.

Lemma call_config_set (apiKey mcpEndpoint userId timeout_text : string) post toolName params :
  apiKey <> "" -> mcpEndpoint <> "" -> userId <> "" ->
  callComposioTool JSON_parse apiKey mcpEndpoint userId timeout_text post toolName params =
  match post (mcpEndpoint ++ "?user_id=" ++ userId) toolName params with
  | AxiosErr ae => handle_axios timeout_text ae
  | AxiosOk data =>
      let parsedData :=
        match data with
        | JStr body => match sse_scan JSON_parse (split_nl (list_ascii_of_string body)) with
                       | Some v => v
                       | None => data
                       end
        | _ => data
        end in
      match normalize parsedData with
      | Ok r => Ok r
      | Throw e => Ok {| cr_successful := false; cr_data := None;
                         cr_error := Some (JStr (message e)) |}
      end
  end.
Proof. intros H1 H2 H3. unfold callComposioTool. now rewrite config_set. Qed.

Lemma handle_axios_throws (t : string) (ae : axios_error) (e : jserror) :
  handle_axios t ae = Throw e ->
  exists m, e = ToolError "composio_client" m (Some (PlainError (ae_message ae)))
                          (negb (match ae_response ae with Some (st, _) => (st =? 401)%Z | None => false end)).
Proof.
  unfold handle_axios.
  destruct (ae_response ae) as [[st body] |].
  - destruct (st =? 401)%Z; [intros H; inversion H; eexists; reflexivity |].
    destruct (st =? 429)%Z; [intros H; inversion H; eexists; reflexivity |].
    destruct (match ae_code ae with Some c => _ | None => false end);
      [intros H; inversion H; eexists; reflexivity | discriminate].
  - destruct (match ae_code ae with Some c => _ | None => false end);
      intros H; inversion H; eexists; reflexivity.
Qed.

Lemma env_str_empty (penv : string -> option string) (k : string) :
  Main.env_str penv k "" = "" <-> penv k = None \/ penv k = Some "".
Proof.
  unfold Main.env_str. destruct (penv k) as [v |]; split; intros H.
  - right; now subst.
  - destruct H as [H | H]; congruence.
  - left; reflexivity.
  - reflexivity.
Qed.

Lemma split_nl_app (a b : list ascii) :
  (split_nl (a ++ nl :: b) = split_nl a ++ split_nl b)%list.
Proof.
  induction a as [| c r IH]; simpl; [reflexivity |].
  rewrite IH. destruct (Ascii.eqb c nl); [reflexivity |].
  destruct (split_nl r) as [| h t] eqn:E.
  - destruct r; simpl in E; [discriminate |]. destruct (Ascii.eqb a nl); [discriminate |].
    destruct (split_nl r); discriminate.
  - reflexivity.
Qed.

Lemma split_nl_line (l : list ascii) : ~ In nl l -> split_nl l = [string_of_list_ascii l].
Proof.
  induction l as [| c r IH]; simpl; intros H; [reflexivity |].
  destruct (Ascii.eqb c nl) eqn:E.
  - apply Ascii.eqb_eq in E. subst c. exfalso; apply H; left; reflexivity.
  - rewrite IH by tauto. reflexivity.
Qed.

Lemma sse_scan_app (pre post : list string) :
  Forall (fun l => sse_line JSON_parse l = None) pre ->
  sse_scan JSON_parse (pre ++ post)%list = sse_scan JSON_parse post.
Proof. induction 1 as [| l r Hl _ IH]; simpl; [reflexivity |]. now rewrite Hl. Qed.

End ComposioFacts.

(* ------------------------------------------------------------------ *)
(** ** Registry keys, listing and naming *)

Lemma register_one_nodup (modules : string -> option ModuleNs)
    (zodToJsonSchema : zschema -> string -> outcome jvalue)
    (st : Registry * list log_entry) (p : string * string) :
  NoDup (map fst (fst st)) ->
  NoDup (map fst (fst (register_one modules zodToJsonSchema st p))).
Proof.
  destruct st as [reg logs], p as [server tool]. simpl. intros Hn.
  destruct (loadToolMetadata modules zodToJsonSchema server tool); simpl; [| exact Hn].
  rewrite map_set_keys.
  destruct (existsb (fun kv => String.eqb (fst kv) (mcpToolName server tool)) reg) eqn:E;
    [exact Hn |].
  apply NoDup_app; [exact Hn | constructor; [intros [] | constructor] |].
  intros x Hx [Hk' | []]. subst x.
  set (x := mcpToolName server tool) in *.
  assert (Hf : existsb (fun kv => String.eqb (fst kv) x) reg = true).
  { apply in_map_iff in Hx. destruct Hx as [[k e] [Hk Hin]]. simpl in Hk. subst k.
    apply existsb_exists. exists (x, e). split; [exact Hin | apply String.eqb_refl]. }
  congruence.
Qed.

Lemma initializeToolRegistry_nodup (modules : string -> option ModuleNs)
    (zodToJsonSchema : zschema -> string -> outcome jvalue) (servers : list ServerMetadata) :
  NoDup (map fst (fst (initializeToolRegistry modules zodToJsonSchema servers))).
Proof.
  unfold initializeToolRegistry.
  assert (Hgen : forall l st, NoDup (map fst (fst st)) ->
            NoDup (map fst (fst (fold_left (register_one modules zodToJsonSchema) l st)))).
  { induction l as [| p l IH]; intros st Hst; simpl; [exact Hst |].
    apply IH, register_one_nodup, Hst. }
  apply Hgen. constructor.
Qed.

Lemma map_get_in (reg : Registry) (k : string) (e : ToolRegistryEntry) :
  NoDup (map fst reg) -> In (k, e) reg -> map_get k reg = Some e.
Proof.
  induction reg as [| [k0 e0] r IH]; simpl; [intros _ [] |].
  intros Hn [Heq | Hin]; inversion Hn as [| ? ? Hnot Hr]; subst.
  - inversion Heq; subst. now rewrite String.eqb_refl.
  - destruct (String.eqb k0 k) eqn:E; [| apply IH; assumption].
    apply String.eqb_eq in E; subst k0. exfalso. apply Hnot.
    apply in_map_iff. exists (k, e). split; [reflexivity | exact Hin].
Qed.

Lemma map_get_in_some (reg : Registry) (k : string) (e : ToolRegistryEntry) :
  In (k, e) reg -> map_get k reg <> None.
Proof.
  induction reg as [| [k0 e0] r IH]; simpl; [intros [] |].
  intros [Heq | Hin].
  - inversion Heq; subst. now rewrite String.eqb_refl.
  - destruct (String.eqb k0 k); [discriminate | apply IH, Hin].
Qed.

Lemma listTools_names (modules : string -> option ModuleNs)
    (zodToJsonSchema : zschema -> string -> outcome jvalue) (servers : list ServerMetadata) :
  map tm_name (listTools (fst (initializeToolRegistry modules zodToJsonSchema servers)))
  = map fst (fst (initializeToolRegistry modules zodToJsonSchema servers)).
Proof.
  pose proof (initializeToolRegistry_nodup modules zodToJsonSchema servers) as Hn.
  pose proof (initializeToolRegistry_consistent modules zodToJsonSchema servers) as Hc.
  revert Hn Hc. generalize (fst (initializeToolRegistry modules zodToJsonSchema servers)) as reg.
  intros reg Hn Hc. unfold listTools. rewrite map_map.
  apply map_ext_in. intros [k e] Hin. simpl.
  exact (proj2 (Hc k e (map_get_in reg k e Hn Hin))).
Qed.


Lemma normalizeServerName_length (s : string) :
  String.length (normalizeServerName s) = String.length s.
Proof.
  induction s as [| c r IH]; simpl; [reflexivity |].
  destruct (Ascii.eqb c "-"); simpl; now rewrite IH.
Qed.

Lemma append_cancel_r (a b x : string) :
  String.length a = String.length b -> a ++ x = b ++ x -> a = b.
Proof.
  revert b. induction a as [| c r IH]; intros [| c' r'] Hl H; simpl in *;
    try discriminate; [reflexivity |].
  injection H as -> H. f_equal. apply IH; [lia | exact H].
Qed.

Lemma normalizeServerName_id (s : string) :
  normalizeServerName s = s <-> ~ In "-"%char (list_ascii_of_string s).
Proof.
  induction s as [| c r IH]; simpl; [tauto |].
  destruct (Ascii.eqb c "-") eqn:E.
  - apply Ascii.eqb_eq in E. subst c. split; [discriminate | intros H; exfalso; apply H; left; reflexivity].
  - apply Ascii.eqb_neq in E. split.
    + intros H [Hc | Hin]; [congruence |]. injection H as H. apply IH in H. contradiction.
    + intros H. f_equal. apply IH. intros Hin. apply H. right; exact Hin.
Qed.

(* ================================================================== *)
(** * Further properties of the code *)


Section SseLines.
Import Composio.
Local Open Scope list_scope.

Lemma split_nl_concat (pre : list string) (rest : list ascii) :
  Forall (fun l => ~ In nl (list_ascii_of_string l)) pre ->
  split_nl (concat (map (fun l => list_ascii_of_string l ++ [nl]) pre) ++ rest)
  = pre ++ split_nl rest.
Proof.
  induction pre as [| l r IH]; intros Hpre; [reflexivity |].
  inversion Hpre as [| ? ? Hnl Hr]; subst.
  cbn [map concat]. rewrite <- !app_assoc.
  change (list_ascii_of_string l ++ [nl] ++ ?x) with (list_ascii_of_string l ++ nl :: x).
  rewrite split_nl_app, split_nl_line by exact Hnl.
  rewrite string_of_list_ascii_of_string, (IH Hr). reflexivity.
Qed.

End SseLines.

(** X1: [env] with a number default reads a value made of JS whitespace,
    the decimal rendering of a safe integer [n] and any text that does not
    start with a digit as [n]: ["8080"], [" 8080"] and ["8080px"] all give
    8080, ["12.9"] gives 12 and ["1e3"] gives 1. *)
Theorem env_num_decimal_prefix (penv : string -> option string) (key : string)
    (default : Config.number) (ws rest : list ascii) (n : Z) :
  Forall (fun c => Config.is_js_space c = true) ws ->
  Config.first_nondigit rest ->
  (Z.abs n < 2 ^ 53)%Z ->
  penv key = Some (string_of_list_ascii (ws ++ num_chars n ++ rest)%list) ->
  Config.env_num penv key default = Config.NInt n.
Proof.
  intros Hw Hr Hn Hk. unfold Config.env_num. rewrite Hk, parseInt10_num by assumption.
  reflexivity.
Qed.

(** X2: [env] with a number default returns the default when the variable
    is unset or when its value contains no decimal digit at all (["abc"],
    [""], ["  "], ["-"]): [parseInt] gives [NaN] there. *)
Theorem env_num_without_digits (penv : string -> option string) (key : string)
    (default : Config.number) :
  (penv key = None \/
   exists v, penv key = Some v /\
     forall c, In c (list_ascii_of_string v) -> Config.digit_value c = None) ->
  Config.env_num penv key default = default.
Proof.
  unfold Config.env_num. intros [H | [v [H Hd]]]; rewrite H; [reflexivity |].
  rewrite parseInt10_no_digits by exact Hd. reflexivity.
Qed.

(** X3: [env] with a boolean default, once the variable is set, gives
    [true] exactly for the spellings of ["true"] in any letter case; every
    other value ([""], ["1"], ["yes"], ["true "]) gives [false], whatever
    the default. *)
Theorem env_bool_true_spelling (penv : string -> option string) (key : string)
    (default : bool) (v : string) :
  penv key = Some v ->
  (Config.env_bool penv key default = true <->
   map to_lower (list_ascii_of_string v) = list_ascii_of_string "true").
Proof.
  intros H. unfold Config.env_bool. rewrite H, String.eqb_eq.
  rewrite <- (js_toLowerCase_letters v _ (incl_refl _)).
  split; intros E; [now rewrite E |].
  rewrite <- (string_of_list_ascii_of_string (Config.js_toLowerCase v)), E. reflexivity.
Qed.

(** X4: whatever [LOG_LEVEL] is set to, [log] writes a [fatal] message. *)
Theorem fatal_always_logged (penv : string -> option string) (ts : string)
    (msgOrObj : jvalue) (msg : option string) :
  Logger.log penv ts Logger.Fatal msgOrObj msg <> None.
Proof.
  apply log_emits.
  destruct (currentLevel_cases penv) as [-> | [n [-> Hn]]]; [reflexivity |].
  simpl. apply Z.ltb_ge. lia.
Qed.

(** X5: with [LOG_LEVEL] set to one of the five level names, a message is
    written exactly when its level ranks at least as high. *)
Theorem log_level_threshold (penv : string -> option string) (lv l : Logger.level)
    (ts : string) (msgOrObj : jvalue) (msg : option string) :
  penv "LOG_LEVEL" = Some (Logger.level_name lv) ->
  (Logger.log penv ts l msgOrObj msg <> None <-> (Logger.rank lv <= Logger.rank l)%Z).
Proof.
  intros H. rewrite log_emits. unfold Logger.currentLevel. rewrite H, LOG_LEVELS_name.
  simpl. rewrite Z.ltb_ge. tauto.
Qed.

(** X6: with [LOG_LEVEL] unset, or set to a string that is neither a
    level name (the lookup is case-sensitive: ["DEBUG"] is not one) nor an
    [Object.prototype] property, the level is [info]: everything but
    [debug] is written. *)
Theorem log_level_default_info (penv : string -> option string) (l : Logger.level)
    (ts : string) (msgOrObj : jvalue) (msg : option string) :
  (penv "LOG_LEVEL" = None \/
   exists v, penv "LOG_LEVEL" = Some v /\
     ~ In v (map Logger.level_name [Logger.Debug; Logger.Info; Logger.Warn; Logger.Error; Logger.Fatal]) /\
     ~ In v Logger.object_prototype_keys) ->
  (Logger.log penv ts l msgOrObj msg <> None <-> l <> Logger.Debug).
Proof.
  intros H. rewrite log_emits.
  assert (Hc : Logger.currentLevel penv = Logger.PNum 1).
  { unfold Logger.currentLevel. destruct H as [-> | [v [-> [H1 H2]]]]; [reflexivity |].
    now rewrite LOG_LEVELS_unknown. }
  rewrite Hc. destruct l; simpl; split; intros E; try discriminate; try reflexivity;
    [now destruct E | intros F; discriminate F ..].
Qed.

(** X7: with [LOG_LEVEL] set to the name of an [Object.prototype]
    property (["toString"], ["constructor"], ["__proto__"], ...), the
    lookup yields an object, the comparison with it is false, and every
    message is written, [debug] included. *)
Theorem log_level_prototype_key (penv : string -> option string) (v : string)
    (l : Logger.level) (ts : string) (msgOrObj : jvalue) (msg : option string) :
  penv "LOG_LEVEL" = Some v -> In v Logger.object_prototype_keys ->
  Logger.log penv ts l msgOrObj msg <> None.
Proof.
  intros H Hv. apply log_emits. unfold Logger.currentLevel.
  rewrite H, LOG_LEVELS_proto by exact Hv. reflexivity.
Qed.

Lemma composio_config_missing_strings (JSON_parse : string -> option jvalue)
    (apiKey mcpEndpoint userId timeout_text : string)
    (post : string -> string -> list (string * jvalue) -> Composio.axios_result)
    (toolName : string) (params : list (string * jvalue)) :
  Composio.callComposioTool JSON_parse apiKey mcpEndpoint userId timeout_text post toolName params
    = Throw (ToolError "composio_client" Composio.config_missing_message None false)
  <-> apiKey = "" \/ mcpEndpoint = "" \/ userId = "".
Proof.
  unfold Composio.callComposioTool.
  destruct (String.eqb apiKey "") eqn:E1;
    [split; [intros _; left; now apply String.eqb_eq | reflexivity] |].
  destruct (String.eqb mcpEndpoint "") eqn:E2;
    [split; [intros _; right; left; now apply String.eqb_eq | reflexivity] |].
  destruct (String.eqb userId "") eqn:E3;
    [split; [intros _; right; right; now apply String.eqb_eq | reflexivity] |].
  cbn [orb]. apply String.eqb_neq in E1, E2, E3. split.
  - intros H. exfalso. destruct (post _ _ _) as [data | ae].
    + destruct (Composio.normalize _); discriminate.
    + apply handle_axios_throws in H. destruct H as [m H]. discriminate.
  - intros [H | [H | H]]; contradiction.
Qed.

(** X8: [callComposioTool], with [config.composio] read from the
    environment, rejects with the non-retryable configuration [ToolError]
    (and no cause) exactly when one of [COMPOSIO_API_KEY],
    [COMPOSIO_MCP_ENDPOINT], [COMPOSIO_USER_ID] is unset or empty; in that
    case the request is never sent, whatever the transport would answer. *)
Theorem composio_config_missing (JSON_parse : string -> option jvalue)
    (penv : string -> option string) (timeout_text : string)
    (post : string -> string -> list (string * jvalue) -> Composio.axios_result)
    (toolName : string) (params : list (string * jvalue)) :
  Composio.composio_from_env JSON_parse penv timeout_text post toolName params
    = Throw (ToolError "composio_client" Composio.config_missing_message None false)
  <-> (penv "COMPOSIO_API_KEY" = None \/ penv "COMPOSIO_API_KEY" = Some "") \/
      (penv "COMPOSIO_MCP_ENDPOINT" = None \/ penv "COMPOSIO_MCP_ENDPOINT" = Some "") \/
      (penv "COMPOSIO_USER_ID" = None \/ penv "COMPOSIO_USER_ID" = Some "").
Proof.
  unfold Composio.composio_from_env. rewrite composio_config_missing_strings.
  rewrite !env_str_empty. tauto.
Qed.

(** X9: once configured, an HTTP 401 answer rejects with the
    non-retryable authentication [ToolError] and an HTTP 429 answer with
    the retryable rate-limit [ToolError], the axios error as cause. *)
Theorem composio_auth_and_rate_limit (JSON_parse : string -> option jvalue)
    (apiKey mcpEndpoint userId timeout_text : string)
    (post : string -> string -> list (string * jvalue) -> Composio.axios_result)
    (toolName : string) (params : list (string * jvalue))
    (ae : Composio.axios_error) (st : Z) (body : jvalue) :
  apiKey <> "" -> mcpEndpoint <> "" -> userId <> "" ->
  post (mcpEndpoint ++ "?user_id=" ++ userId) toolName params = Composio.AxiosErr ae ->
  Composio.ae_response ae = Some (st, body) ->
  st = 401%Z \/ st = 429%Z ->
  Composio.callComposioTool JSON_parse apiKey mcpEndpoint userId timeout_text post toolName params
  = Throw (ToolError "composio_client"
             (if (st =? 401)%Z then "Composio authentication failed. Check COMPOSIO_API_KEY."
              else "Composio rate limit exceeded. Wait before retrying.")
             (Some (PlainError (Composio.ae_message ae))) (st =? 429)%Z).
Proof.
  intros H1 H2 H3 Hp Hr Hs. rewrite call_config_set by assumption. rewrite Hp.
  unfold Composio.handle_axios. rewrite Hr. destruct Hs as [-> | ->]; reflexivity.
Qed.

(** X10: once configured, an axios error with code [ECONNABORTED] or
    [ETIMEDOUT] and no 401 or 429 status rejects with the retryable
    timeout [ToolError] that names [config.timeout.default]. *)
Theorem composio_timeout_retryable (JSON_parse : string -> option jvalue)
    (apiKey mcpEndpoint userId timeout_text : string)
    (post : string -> string -> list (string * jvalue) -> Composio.axios_result)
    (toolName : string) (params : list (string * jvalue)) (ae : Composio.axios_error) :
  apiKey <> "" -> mcpEndpoint <> "" -> userId <> "" ->
  post (mcpEndpoint ++ "?user_id=" ++ userId) toolName params = Composio.AxiosErr ae ->
  (forall st body, Composio.ae_response ae = Some (st, body) -> st <> 401%Z /\ st <> 429%Z) ->
  Composio.ae_code ae = Some "ECONNABORTED" \/ Composio.ae_code ae = Some "ETIMEDOUT" ->
  Composio.callComposioTool JSON_parse apiKey mcpEndpoint userId timeout_text post toolName params
  = Throw (ToolError "composio_client" ("Composio request timeout (" ++ timeout_text ++ "ms)")
             (Some (PlainError (Composio.ae_message ae))) true).
Proof.
  intros H1 H2 H3 Hp Hs Hc. rewrite call_config_set by assumption. rewrite Hp.
  unfold Composio.handle_axios.
  assert (Ht : match Composio.ae_code ae with
               | Some c => (String.eqb c "ECONNABORTED" || String.eqb c "ETIMEDOUT")%bool
               | None => false end = true) by (destruct Hc as [-> | ->]; reflexivity).
  rewrite Ht.
  destruct (Composio.ae_response ae) as [[st body] |]; [| reflexivity].
  destruct (Hs st body eq_refl) as [N1 N2].
  apply Z.eqb_neq in N1, N2. now rewrite N1, N2.
Qed.

(** X11: once configured, an axios error without a response (a network
    failure) and without a timeout code rejects with the retryable
    [ToolError] ["Network error: <message>"]. *)
Theorem composio_network_error_retryable (JSON_parse : string -> option jvalue)
    (apiKey mcpEndpoint userId timeout_text : string)
    (post : string -> string -> list (string * jvalue) -> Composio.axios_result)
    (toolName : string) (params : list (string * jvalue)) (ae : Composio.axios_error) :
  apiKey <> "" -> mcpEndpoint <> "" -> userId <> "" ->
  post (mcpEndpoint ++ "?user_id=" ++ userId) toolName params = Composio.AxiosErr ae ->
  Composio.ae_response ae = None ->
  (forall c, Composio.ae_code ae = Some c -> c <> "ECONNABORTED" /\ c <> "ETIMEDOUT") ->
  Composio.callComposioTool JSON_parse apiKey mcpEndpoint userId timeout_text post toolName params
  = Throw (ToolError "composio_client" ("Network error: " ++ Composio.ae_message ae)
             (Some (PlainError (Composio.ae_message ae))) true).
Proof.
  intros H1 H2 H3 Hp Hr Hc. rewrite call_config_set by assumption. rewrite Hp.
  unfold Composio.handle_axios. rewrite Hr.
  destruct (Composio.ae_code ae) as [c |]; [| reflexivity].
  destruct (Hc c eq_refl) as [N1 N2]. apply String.eqb_neq in N1, N2. now rewrite N1, N2.
Qed.

(** X12: once configured, an axios error that carries a response whose
    status is neither 401 nor 429, without a timeout code, does not
    reject: the call resolves with [successful: false], no [data], and as
    [error] the body's [error] field when truthy, else the error message. *)
Theorem composio_http_error_resolves (JSON_parse : string -> option jvalue)
    (apiKey mcpEndpoint userId timeout_text : string)
    (post : string -> string -> list (string * jvalue) -> Composio.axios_result)
    (toolName : string) (params : list (string * jvalue))
    (ae : Composio.axios_error) (st : Z) (body : jvalue) :
  apiKey <> "" -> mcpEndpoint <> "" -> userId <> "" ->
  post (mcpEndpoint ++ "?user_id=" ++ userId) toolName params = Composio.AxiosErr ae ->
  Composio.ae_response ae = Some (st, body) -> st <> 401%Z -> st <> 429%Z ->
  (forall c, Composio.ae_code ae = Some c -> c <> "ECONNABORTED" /\ c <> "ETIMEDOUT") ->
  Composio.callComposioTool JSON_parse apiKey mcpEndpoint userId timeout_text post toolName params
  = Ok {| Composio.cr_successful := false; Composio.cr_data := None;
          Composio.cr_error :=
            if truthy (Composio.opt_member (Some body) "error")
            then Composio.opt_member (Some body) "error"
            else Some (JStr (Composio.ae_message ae)) |}.
Proof.
  intros H1 H2 H3 Hp Hr N1 N2 Hc. rewrite call_config_set by assumption. rewrite Hp.
  unfold Composio.handle_axios. rewrite Hr.
  apply Z.eqb_neq in N1, N2. rewrite N1, N2.
  destruct (Composio.ae_code ae) as [c |]; [| reflexivity].
  destruct (Hc c eq_refl) as [C1 C2]. apply String.eqb_neq in C1, C2. now rewrite C1, C2.
Qed.

(** X13: [callComposioTool] only ever rejects with a [ToolError] of the
    tool ["composio_client"]; a non-retryable one only when the
    configuration is incomplete or the server answered HTTP 401. Every
    other failure, including a [TypeError] while reading the body,
    resolves. *)
Theorem composio_rejections (JSON_parse : string -> option jvalue)
    (apiKey mcpEndpoint userId timeout_text : string)
    (post : string -> string -> list (string * jvalue) -> Composio.axios_result)
    (toolName : string) (params : list (string * jvalue)) (e : jserror) :
  Composio.callComposioTool JSON_parse apiKey mcpEndpoint userId timeout_text post toolName params
    = Throw e ->
  exists m c r, e = ToolError "composio_client" m c r /\
    (r = false ->
     (apiKey = "" \/ mcpEndpoint = "" \/ userId = "") \/
     exists ae body, post (mcpEndpoint ++ "?user_id=" ++ userId) toolName params = Composio.AxiosErr ae
                     /\ Composio.ae_response ae = Some (401%Z, body)).
Proof.
  unfold Composio.callComposioTool.
  destruct (String.eqb apiKey "" || String.eqb mcpEndpoint "" || String.eqb userId "")%bool eqn:Ec.
  - intros H. inversion H; subst. do 3 eexists. split; [reflexivity |]. intros _. left.
    apply orb_true_iff in Ec. destruct Ec as [Ec | Ec]; [apply orb_true_iff in Ec; destruct Ec as [Ec | Ec] |];
      apply String.eqb_eq in Ec; tauto.
  - destruct (post _ _ _) as [data | ae] eqn:Hp.
    + destruct (Composio.normalize _); discriminate.
    + intros H. pose proof (handle_axios_throws _ _ _ H) as [m Hm]. subst e.
      do 3 eexists. split; [reflexivity |]. intros Hr. right.
      destruct (Composio.ae_response ae) as [[st body] |] eqn:Er; [| discriminate].
      destruct (Z.eqb_spec st 401) as [-> | N]; [| discriminate].
      exists ae, body. split; first [reflexivity | assumption].
Qed.

(** X14: once configured, a JSON object body never makes the call
    reject; the result is unsuccessful only when the body's [successful]
    field is the boolean [false] (a missing, [null], [0] or ["false"]
    field counts as success), [data] is the body's truthy [data] field or
    else the whole body, and [error] is the body's [error] field. *)
Theorem composio_object_body (JSON_parse : string -> option jvalue)
    (apiKey mcpEndpoint userId timeout_text : string)
    (post : string -> string -> list (string * jvalue) -> Composio.axios_result)
    (toolName : string) (params : list (string * jvalue)) (l : list (string * jvalue)) :
  apiKey <> "" -> mcpEndpoint <> "" -> userId <> "" ->
  post (mcpEndpoint ++ "?user_id=" ++ userId) toolName params = Composio.AxiosOk (JObj l) ->
  exists r,
    Composio.callComposioTool JSON_parse apiKey mcpEndpoint userId timeout_text post toolName params
      = Ok r /\
    (Composio.cr_successful r = false <-> lookup "successful" l = Some (JBool false)) /\
    Composio.cr_data r = (if truthy (lookup "data" l) then lookup "data" l else Some (JObj l)) /\
    Composio.cr_error r = lookup "error" l.
Proof.
  intros H1 H2 H3 Hp. rewrite call_config_set by assumption. rewrite Hp.
  cbv zeta iota. rewrite normalize_obj.
  eexists. split; [reflexivity |]. cbn [Composio.cr_successful Composio.cr_data Composio.cr_error].
  split; [| split; reflexivity].
  destruct (lookup "successful" l) as [[| [] | z | s | xs | xs] |]; split; congruence.
Qed.

(** X15: once configured, a [null] body does not reject either: reading
    [parsedData.successful] throws a [TypeError], which the [catch] turns
    into an unsuccessful result carrying its message. *)
Theorem composio_null_body (JSON_parse : string -> option jvalue)
    (apiKey mcpEndpoint userId timeout_text : string)
    (post : string -> string -> list (string * jvalue) -> Composio.axios_result)
    (toolName : string) (params : list (string * jvalue)) :
  apiKey <> "" -> mcpEndpoint <> "" -> userId <> "" ->
  post (mcpEndpoint ++ "?user_id=" ++ userId) toolName params = Composio.AxiosOk JNull ->
  Composio.callComposioTool JSON_parse apiKey mcpEndpoint userId timeout_text post toolName params
  = Ok {| Composio.cr_successful := false; Composio.cr_data := None;
          Composio.cr_error := Some (JStr "Cannot read properties of null (reading 'successful')") |}.
Proof. intros H1 H2 H3 Hp. rewrite call_config_set by assumption. rewrite Hp. reflexivity. Qed.

(** X16: once configured, a text (SSE) body none of whose lines starts
    with ["data: "] is reported as a success, with the raw text as [data]
    and no [error]. *)
Theorem composio_sse_without_data_line (JSON_parse : string -> option jvalue)
    (apiKey mcpEndpoint userId timeout_text : string)
    (post : string -> string -> list (string * jvalue) -> Composio.axios_result)
    (toolName : string) (params : list (string * jvalue)) (body : string) :
  apiKey <> "" -> mcpEndpoint <> "" -> userId <> "" ->
  post (mcpEndpoint ++ "?user_id=" ++ userId) toolName params = Composio.AxiosOk (JStr body) ->
  Forall (fun l => String.prefix "data: " l = false) (Composio.split_nl (list_ascii_of_string body)) ->
  Composio.callComposioTool JSON_parse apiKey mcpEndpoint userId timeout_text post toolName params
  = Ok {| Composio.cr_successful := true; Composio.cr_data := Some (JStr body);
          Composio.cr_error := None |}.
Proof.
  intros H1 H2 H3 Hp Hl. rewrite call_config_set by assumption. rewrite Hp.
  cbv zeta. rewrite sse_scan_no_data by exact Hl. reflexivity.
Qed.

(** X17: once configured, a text (SSE) body is read from its first line
    ["data: <payload>"] whose payload parses to an object with a non-empty
    string [result.content[0].text] that itself parses to a non-string
    value [v]: earlier lines that are not data lines, or whose payload
    does not parse, are skipped, and the call then behaves exactly as if
    the server had answered with the JSON body [v]. *)
Theorem composio_sse_first_usable_line (JSON_parse : string -> option jvalue)
    (apiKey mcpEndpoint userId timeout_text : string)
    (post post' : string -> string -> list (string * jvalue) -> Composio.axios_result)
    (toolName : string) (params : list (string * jvalue))
    (pre : list string) (payload tail text : string) (p v : jvalue) :
  apiKey <> "" -> mcpEndpoint <> "" -> userId <> "" ->
  Forall (fun l => ~ In nl (list_ascii_of_string l) /\
                   (String.prefix "data: " l = false \/
                    JSON_parse (substring 6 (String.length l - 6) l) = None)) pre ->
  ~ In nl (list_ascii_of_string payload) ->
  (tail = "" \/ exists r, tail = String nl r) ->
  JSON_parse payload = Some p ->
  Composio.opt_member (Composio.opt_member (Composio.opt_member (Composio.prop p "result")
    "content") "0") "text" = Some (JStr text) ->
  text <> "" ->
  JSON_parse text = Some v ->
  (forall s, v <> JStr s) ->
  post (mcpEndpoint ++ "?user_id=" ++ userId) toolName params
    = Composio.AxiosOk (JStr (string_of_list_ascii
        (concat (map (fun l => list_ascii_of_string l ++ [nl]) pre)
         ++ list_ascii_of_string ("data: " ++ payload) ++ list_ascii_of_string tail)%list)) ->
  post' (mcpEndpoint ++ "?user_id=" ++ userId) toolName params = Composio.AxiosOk v ->
  Composio.callComposioTool JSON_parse apiKey mcpEndpoint userId timeout_text post toolName params
  = Composio.callComposioTool JSON_parse apiKey mcpEndpoint userId timeout_text post' toolName params.
Proof.
  intros H1 H2 H3 Hpre Hpl Ht Hp Htext Hne Hv Hns Hpost Hpost'.
  rewrite !call_config_set by assumption. rewrite Hpost, Hpost'.
  cbv zeta. rewrite list_ascii_of_string_of_list_ascii.
  rewrite split_nl_concat
    by (eapply Forall_impl; [| exact Hpre]; intros l [Hl _]; exact Hl).
  assert (Hskip : Forall (fun l => Composio.sse_line JSON_parse l = None) pre).
  { eapply Forall_impl; [| exact Hpre]. intros l [_ [Hl | Hl]]; unfold Composio.sse_line.
    - now rewrite Hl.
    - destruct (String.prefix "data: " l); [now rewrite Hl | reflexivity]. }
  rewrite sse_scan_app by exact Hskip.
  set (line := "data: " ++ payload).
  assert (Hline : Composio.sse_line JSON_parse line = Some v).
  { unfold Composio.sse_line, line. rewrite prefix_app.
    assert (Hsub : substring 6 (String.length ("data: " ++ payload) - 6) ("data: " ++ payload) = payload).
    { rewrite length_append.
      replace (String.length "data: " + String.length payload - 6)%nat
        with (String.length payload) by (cbn [String.length]; lia).
      exact (substring_after "data: " payload). }
    rewrite Hsub, Hp.
    apply String.eqb_neq in Hne.
    destruct p; try (simpl in Htext; discriminate).
    all: cbn [Composio.member]; cbv zeta; rewrite Htext; cbn [truthy]; rewrite Hne; exact Hv. }
  assert (Hsc : Composio.sse_scan JSON_parse (Composio.split_nl (list_ascii_of_string line ++ list_ascii_of_string tail)%list) = Some v).
  { destruct Ht as [-> | [r ->]].
    - rewrite app_nil_r, split_nl_line, string_of_list_ascii_of_string.
      + simpl. now rewrite Hline.
      + unfold line. rewrite list_ascii_of_string_append. intros Hin.
        apply in_app_or in Hin. destruct Hin as [Hin | Hin]; [| contradiction].
        simpl in Hin. repeat (destruct Hin as [Hin | Hin]; [discriminate |]). destruct Hin.
    - cbn [list_ascii_of_string]. rewrite split_nl_app, split_nl_line, string_of_list_ascii_of_string.
      + simpl. now rewrite Hline.
      + unfold line. rewrite list_ascii_of_string_append. intros Hin.
        apply in_app_or in Hin. destruct Hin as [Hin | Hin]; [| contradiction].
        simpl in Hin. repeat (destruct Hin as [Hin | Hin]; [discriminate |]). destruct Hin. }
  rewrite Hsc.
  destruct v; try reflexivity. exfalso. apply (Hns s). reflexivity.
Qed.

(** X18: on any response object that is not [null], [extractComposioItems]
    returns a truthy value (the empty array when no location holds a
    truthy value) and [extractNextPageToken] returns [null] or a truthy
    value: an empty-string token reads as [null]. *)
Theorem composio_extractors (response : jvalue) :
  response <> JNull ->
  (exists items, Composio.extractComposioItems response = Ok items /\ truthy (Some items) = true) /\
  (exists tok, Composio.extractNextPageToken response = Ok tok /\
               (tok = JNull \/ truthy (Some tok) = true)).
Proof.
  intros Hn.
  assert (Hm : Composio.member (Some response) "data" = Ok (Composio.prop response "data"))
    by (destruct response; [contradiction | reflexivity ..]).
  split.
  - unfold Composio.extractComposioItems. rewrite Hm. cbn [bind]. cbv zeta.
    match goal with |- exists _, match ?x with _ => _ end = _ /\ _ => destruct x as [v |] end.
    + destruct (truthy (Some v)) eqn:E; eexists; split; try reflexivity; assumption.
    + eexists; split; reflexivity.
  - unfold Composio.extractNextPageToken. rewrite Hm. cbn [bind]. cbv zeta.
    eexists; split; [reflexivity |].
    generalize (Composio.opt_member (Composio.opt_member (Composio.prop response "data")
                  "response_data") "nextPageToken") as a.
    generalize (Composio.opt_member (Composio.prop response "data") "nextPageToken") as b.
    intros b a. destruct (truthy a) eqn:Ea; [destruct a; [right; exact Ea | discriminate] |].
    destruct (truthy b) eqn:Eb; [destruct b; [right; exact Eb | discriminate] | left; reflexivity].
Qed.

(** X19: the tools/list answer built from the registry never lists two
    tools under the same name. *)
Theorem listed_tool_names_distinct (modules : string -> option ModuleNs)
    (zodToJsonSchema : zschema -> string -> outcome jvalue) (servers : list ServerMetadata) :
  NoDup (map tm_name (listTools (fst (initializeToolRegistry modules zodToJsonSchema servers)))).
Proof. rewrite listTools_names. apply initializeToolRegistry_nodup. Qed.


(** X21: a tool made by [createTool] carries no [description], so the
    metadata loaded for it describes it as ["<name> tool"], or as
    ["<server> <tool> tool"] when its name is empty. *)
Theorem createTool_listed_description (modules : string -> option ModuleNs)
    (zodToJsonSchema : zschema -> string -> outcome jvalue) (server tool name : string)
    (input output : zschema) (execute : jvalue -> outcome jvalue) (m : ModuleNs) (md : ToolMeta) :
  modules (modulePath server tool) = Some m ->
  pick_tool m tool = Some (createTool name input output execute) ->
  loadToolMetadata modules zodToJsonSchema server tool = Ok md ->
  tm_description md =
    (if String.eqb name "" then server ++ " " ++ tool ++ " tool" else name ++ " tool").
Proof.
  intros Hm Hp Hl. unfold loadToolMetadata, import in Hl. rewrite Hm in Hl.
  cbn [bind] in Hl. rewrite Hp in Hl. cbn [bind tv_inputSchema createTool] in Hl.
  destruct (zodToJsonSchema input _) as [full | e]; cbn [bind] in Hl; [| discriminate].
  destruct (flatten_schema full); cbn [bind] in Hl; [| discriminate].
  injection Hl as <-. reflexivity.
Qed.

(** X22: the stdio server's registry key for a tool and the HTTP
    server's key agree exactly when the server name has no hyphen; for a
    name such as ["qdrant-rag"] the two transports expose the same tool
    under different names. *)
Theorem stdio_http_names_agree (serverName toolName : string) :
  mcpToolName_stdio serverName toolName = mcpToolName serverName toolName <->
  ~ In "-"%char (list_ascii_of_string serverName).
Proof.
  rewrite <- normalizeServerName_id. unfold mcpToolName_stdio, mcpToolName. split.
  - intros H. apply (append_cancel_r _ _ ("__" ++ camelToSnake toolName));
      [apply normalizeServerName_length | exact (eq_sym H)].
  - intros ->. reflexivity.
Qed.

(* ------------------------------------------------------------------ *)
(** ** Witnesses *)

Lemma env_num_decimal_prefix_witness :
  Config.env_num (fun k => if String.eqb k "MCP_PORT" then Some " 8080px" else None)
    "MCP_PORT" (Config.NInt 3000) = Config.NInt 8080.
Proof.
  apply (env_num_decimal_prefix _ _ _ [" "%char] (list_ascii_of_string "px") 8080).
  - repeat constructor.
  - vm_compute. reflexivity.
  - vm_compute. reflexivity.
  - vm_compute. reflexivity.
Defined.

Lemma env_num_without_digits_witness :
  Config.env_num (fun k => if String.eqb k "MCP_PORT" then Some "abc" else None)
    "MCP_PORT" (Config.NInt 3000) = Config.NInt 3000.
Proof.
  apply env_num_without_digits. right. exists "abc". split; [reflexivity |].
  intros c Hc. simpl in Hc. destruct Hc as [<- | [<- | [<- | []]]]; reflexivity.
Defined.

Lemma env_bool_true_spelling_witness :
  Config.env_bool (fun k => if String.eqb k "GMAIL_ENABLED" then Some "TRUE" else None)
    "GMAIL_ENABLED" false = true.
Proof.
  apply (proj2 (env_bool_true_spelling _ _ false "TRUE" eq_refl)). vm_compute. reflexivity.
Defined.

Lemma log_level_threshold_witness :
  Logger.log (fun k => if String.eqb k "LOG_LEVEL" then Some "warn" else None)
    "2026-01-01T00:00:00.000Z" Logger.Error (JStr "m") None <> None.
Proof.
  apply (proj2 (log_level_threshold _ Logger.Warn Logger.Error _ _ _ eq_refl)).
  vm_compute. discriminate.
Defined.

Lemma log_level_default_info_witness :
  Logger.log (fun k => if String.eqb k "LOG_LEVEL" then Some "DEBUG" else None)
    "2026-01-01T00:00:00.000Z" Logger.Debug (JStr "m") None = None.
Proof.
  destruct (Logger.log _ _ _ _ _) eqn:E; [| reflexivity]. exfalso.
  assert (Hne : Logger.log (fun k => if String.eqb k "LOG_LEVEL" then Some "DEBUG" else None)
                  "2026-01-01T00:00:00.000Z" Logger.Debug (JStr "m") None <> None)
    by (rewrite E; discriminate).
  refine (proj1 (log_level_default_info _ Logger.Debug _ _ _ _) Hne eq_refl).
  right. exists "DEBUG". split; [reflexivity |].
  split; vm_compute; intros H; repeat destruct H as [H | H]; try discriminate H; exact H.
Defined.

Lemma log_level_prototype_key_witness :
  Logger.log (fun k => if String.eqb k "LOG_LEVEL" then Some "toString" else None)
    "2026-01-01T00:00:00.000Z" Logger.Debug (JStr "m") None <> None.
Proof.
  apply (log_level_prototype_key _ "toString"); [reflexivity |].
  vm_compute. repeat (first [left; reflexivity | right]).
Defined.

Lemma composio_auth_and_rate_limit_witness :
  Composio.callComposioTool (fun _ => None) "key" "https://mcp.example" "u1" "30000"
    (fun _ _ _ => Composio.AxiosErr
       {| Composio.ae_message := "Request failed with status code 429";
          Composio.ae_code := Some "ERR_BAD_REQUEST";
          Composio.ae_response := Some (429%Z, JNull) |})
    "YOUTUBE_LIST_USER_SUBSCRIPTIONS" []
  = Throw (ToolError "composio_client" "Composio rate limit exceeded. Wait before retrying."
             (Some (PlainError "Request failed with status code 429")) true).
Proof.
  rewrite composio_auth_and_rate_limit with (st := 429%Z) (body := JNull)
    (ae := {| Composio.ae_message := "Request failed with status code 429";
              Composio.ae_code := Some "ERR_BAD_REQUEST";
              Composio.ae_response := Some (429%Z, JNull) |});
    [reflexivity | discriminate | discriminate | discriminate | reflexivity | reflexivity
    | right; reflexivity].
Defined.

Lemma composio_timeout_retryable_witness :
  Composio.callComposioTool (fun _ => None) "key" "https://mcp.example" "u1" "30000"
    (fun _ _ _ => Composio.AxiosErr
       {| Composio.ae_message := "timeout of 30000ms exceeded";
          Composio.ae_code := Some "ECONNABORTED";
          Composio.ae_response := None |})
    "YOUTUBE_LIST_USER_SUBSCRIPTIONS" []
  = Throw (ToolError "composio_client" "Composio request timeout (30000ms)"
             (Some (PlainError "timeout of 30000ms exceeded")) true).
Proof.
  rewrite composio_timeout_retryable
    with (ae := {| Composio.ae_message := "timeout of 30000ms exceeded";
                   Composio.ae_code := Some "ECONNABORTED";
                   Composio.ae_response := None |});
    [reflexivity | discriminate | discriminate | discriminate | reflexivity
    | intros st body H; discriminate H | left; reflexivity].
Defined.

Lemma composio_network_error_retryable_witness :
  Composio.callComposioTool (fun _ => None) "key" "https://mcp.example" "u1" "30000"
    (fun _ _ _ => Composio.AxiosErr
       {| Composio.ae_message := "getaddrinfo ENOTFOUND mcp.example";
          Composio.ae_code := Some "ENOTFOUND";
          Composio.ae_response := None |})
    "YOUTUBE_LIST_USER_SUBSCRIPTIONS" []
  = Throw (ToolError "composio_client" "Network error: getaddrinfo ENOTFOUND mcp.example"
             (Some (PlainError "getaddrinfo ENOTFOUND mcp.example")) true).
Proof.
  rewrite composio_network_error_retryable
    with (ae := {| Composio.ae_message := "getaddrinfo ENOTFOUND mcp.example";
                   Composio.ae_code := Some "ENOTFOUND";
                   Composio.ae_response := None |});
    [reflexivity | discriminate | discriminate | discriminate | reflexivity | reflexivity
    | intros c H; injection H as <-; split; discriminate].
Defined.

Lemma composio_http_error_resolves_witness :
  Composio.callComposioTool (fun _ => None) "key" "https://mcp.example" "u1" "30000"
    (fun _ _ _ => Composio.AxiosErr
       {| Composio.ae_message := "Request failed with status code 500";
          Composio.ae_code := Some "ERR_BAD_RESPONSE";
          Composio.ae_response := Some (500%Z, JObj [("error", JStr "boom")]) |})
    "YOUTUBE_LIST_USER_SUBSCRIPTIONS" []
  = Ok {| Composio.cr_successful := false; Composio.cr_data := None;
          Composio.cr_error := Some (JStr "boom") |}.
Proof.
  rewrite composio_http_error_resolves with (st := 500%Z) (body := JObj [("error", JStr "boom")])
    (ae := {| Composio.ae_message := "Request failed with status code 500";
              Composio.ae_code := Some "ERR_BAD_RESPONSE";
              Composio.ae_response := Some (500%Z, JObj [("error", JStr "boom")]) |});
    [reflexivity | discriminate | discriminate | discriminate | reflexivity | reflexivity
    | discriminate | discriminate | intros c H; injection H as <-; split; discriminate].
Defined.

Lemma composio_rejections_witness :
  exists m c r,
    ToolError "composio_client" "Composio authentication failed. Check COMPOSIO_API_KEY."
      (Some (PlainError "Request failed with status code 401")) false = ToolError "composio_client" m c r /\
    (r = false ->
     ("key" = "" \/ "https://mcp.example" = "" \/ "u1" = "") \/
     exists ae body,
       Composio.AxiosErr {| Composio.ae_message := "Request failed with status code 401";
                            Composio.ae_code := Some "ERR_BAD_REQUEST";
                            Composio.ae_response := Some (401%Z, JNull) |} = Composio.AxiosErr ae
       /\ Composio.ae_response ae = Some (401%Z, body)).
Proof.
  apply (composio_rejections (fun _ => None) "key" "https://mcp.example" "u1" "30000"
    (fun _ _ _ => Composio.AxiosErr
       {| Composio.ae_message := "Request failed with status code 401";
          Composio.ae_code := Some "ERR_BAD_REQUEST";
          Composio.ae_response := Some (401%Z, JNull) |})
    "YOUTUBE_LIST_USER_SUBSCRIPTIONS" []).
  vm_compute. reflexivity.
Defined.

Lemma composio_object_body_witness :
  exists r,
    Composio.callComposioTool (fun _ => None) "key" "https://mcp.example" "u1" "30000"
      (fun _ _ _ => Composio.AxiosOk (JObj [("successful", JNull); ("data", JArr [JNum 1])]))
      "YOUTUBE_LIST_USER_SUBSCRIPTIONS" [] = Ok r /\
    (Composio.cr_successful r = false <->
     lookup "successful" [("successful", JNull); ("data", JArr [JNum 1])] = Some (JBool false)) /\
    Composio.cr_data r = Some (JArr [JNum 1]) /\
    Composio.cr_error r = None.
Proof.
  destruct (composio_object_body (fun _ => None) "key" "https://mcp.example" "u1" "30000"
    (fun _ _ _ => Composio.AxiosOk (JObj [("successful", JNull); ("data", JArr [JNum 1])]))
    "YOUTUBE_LIST_USER_SUBSCRIPTIONS" [] [("successful", JNull); ("data", JArr [JNum 1])])
    as [r [H1 [H2 [H3 H4]]]]; [discriminate | discriminate | discriminate | reflexivity |].
  exists r. split; [exact H1 |]. split; [exact H2 |]. split; [exact H3 | exact H4].
Defined.

Lemma composio_null_body_witness :
  Composio.callComposioTool (fun _ => None) "key" "https://mcp.example" "u1" "30000"
    (fun _ _ _ => Composio.AxiosOk JNull) "YOUTUBE_LIST_USER_SUBSCRIPTIONS" []
  = Ok {| Composio.cr_successful := false; Composio.cr_data := None;
          Composio.cr_error := Some (JStr "Cannot read properties of null (reading 'successful')") |}.
Proof.
  apply composio_null_body; [discriminate | discriminate | discriminate | reflexivity].
Defined.

Lemma composio_sse_without_data_line_witness :
  Composio.callComposioTool (fun _ => None) "key" "https://mcp.example" "u1" "30000"
    (fun _ _ _ => Composio.AxiosOk (JStr ("event: message" ++ String nl "id: 1")))
    "YOUTUBE_LIST_USER_SUBSCRIPTIONS" []
  = Ok {| Composio.cr_successful := true;
          Composio.cr_data := Some (JStr ("event: message" ++ String nl "id: 1"));
          Composio.cr_error := None |}.
Proof.
  apply composio_sse_without_data_line;
    [discriminate | discriminate | discriminate | reflexivity |].
  vm_compute. repeat constructor.
Defined.

Lemma composio_sse_first_usable_line_witness :
  Composio.callComposioTool
    (fun s => if String.eqb s "P" then
                Some (JObj [("result", JObj [("content", JArr [JObj [("text", JStr "T")]])])])
              else if String.eqb s "T" then Some (JObj [("successful", JBool true)])
              else None)
    "key" "https://mcp.example" "u1" "30000"
    (fun _ _ _ => Composio.AxiosOk
       (JStr ("event: message" ++ String nl ("data: junk" ++ String nl "data: P"))))
    "YOUTUBE_LIST_USER_SUBSCRIPTIONS" []
  = Composio.callComposioTool
    (fun s => if String.eqb s "P" then
                Some (JObj [("result", JObj [("content", JArr [JObj [("text", JStr "T")]])])])
              else if String.eqb s "T" then Some (JObj [("successful", JBool true)])
              else None)
    "key" "https://mcp.example" "u1" "30000"
    (fun _ _ _ => Composio.AxiosOk (JObj [("successful", JBool true)]))
    "YOUTUBE_LIST_USER_SUBSCRIPTIONS" [].
Proof.
  apply (composio_sse_first_usable_line _ _ _ _ _ _ _ _ _
           ["event: message"; "data: junk"] "P" "" "T"
           (JObj [("result", JObj [("content", JArr [JObj [("text", JStr "T")]])])])
           (JObj [("successful", JBool true)]));
    [discriminate | discriminate | discriminate | | | left; reflexivity | reflexivity
    | reflexivity | discriminate | reflexivity | intros s H; discriminate H
    | vm_compute; reflexivity | reflexivity].
  - constructor; [| constructor; [| constructor]]; split;
      [vm_compute; intros H; repeat destruct H as [H | H]; try discriminate H; exact H
      | left; reflexivity
      | vm_compute; intros H; repeat destruct H as [H | H]; try discriminate H; exact H
      | right; reflexivity].
  - vm_compute. intros H; repeat destruct H as [H | H]; try discriminate H; exact H.
Defined.

Lemma composio_extractors_witness :
  (exists items,
     Composio.extractComposioItems (JObj [("data", JObj [("items", JArr [JNum 1])])]) = Ok items /\
     truthy (Some items) = true) /\
  (exists tok,
     Composio.extractNextPageToken (JObj [("data", JObj [("items", JArr [JNum 1])])]) = Ok tok /\
     (tok = JNull \/ truthy (Some tok) = true)).
Proof. apply composio_extractors. discriminate. Defined.


Lemma createTool_listed_description_witness :
  exists md, loadToolMetadata demo_modules demo_zodToJsonSchema "alpha" "doThing" = Ok md /\
             tm_description md = "alpha__do_thing tool".
Proof.
  eexists. split; [vm_compute; reflexivity |].
  eapply (createTool_listed_description demo_modules demo_zodToJsonSchema "alpha" "doThing"
            "alpha__do_thing" doThing_input ZAny); [reflexivity | reflexivity |].
  vm_compute. reflexivity.
Defined.
